(** * GoveeLife light platform and services

    A shallow embedding of [custom_components/goveelife/light.py] and
    [custom_components/goveelife/services.py], followed by the properties
    established about them.

    Layout:
    - [Py]: the fragment of the Python runtime the two files rely on
      (values, exceptions, insertion-ordered dicts, an effect monad with a
      trace of what the code asks of its host);
    - [Color]: the 24-bit RGB packing of [GoveeLifeLight];
    - [Brightness]: the host's brightness rescaling helpers;
    - [Light]: the entity, its properties and [async_turn_on]/[async_turn_off];
    - [Services]: service registration and the two service handlers;
    - [LightSpec]: the vocabulary of the statements about the light;
    - [Fixtures]: concrete devices, worlds and service calls;
    - [Setup]: the platform set-up, [async_setup_entry];
    - [ExtraSpec], [SetupSpec], [ServicesSpec], [MoreFixtures]: the
      vocabulary and the fixtures of Part III;
    - the [..Facts] modules and [Scenarios]: lemmas and theorems about the
      above, and the statements evaluated at the fixtures;
    - the [..More] modules and [MoreScenarios]: further properties of the
      same code, error and edge behaviour, invariants and round trips. *)

From Stdlib Require Import ZArith QArith Qround Lia Floats.
From stdpp Require Import gmap strings list.

(* ================================================================== *)
(** * Part I: the model *)
(* ================================================================== *)

Module Py.

(** Python values as they travel through the integration: JSON scalars and
    flat JSON objects (a scene value is either an integer or an object such
    as [{"id": 1, "paramId": 2}]).  [gmap] gives objects the order-insensitive
    equality of Python dicts. *)
Inductive Value : Type :=
  | VNone
  | VInt (n : Z)
  | VStr (s : string)
  | VObj (o : gmap string Z).

#[global] Instance Value_eq_dec : EqDecision Value.
Proof. solve_decision. Defined.

Definition Value_enc (v : Value) : unit + (Z + (string + gmap string Z)) :=
  match v with
  | VNone => inl tt
  | VInt n => inr (inl n)
  | VStr s => inr (inr (inl s))
  | VObj o => inr (inr (inr o))
  end.

Definition Value_dec (x : unit + (Z + (string + gmap string Z))) : Value :=
  match x with
  | inl _ => VNone
  | inr (inl n) => VInt n
  | inr (inr (inl s)) => VStr s
  | inr (inr (inr o)) => VObj o
  end.

#[global] Instance Value_countable : Countable Value.
Proof. apply (inj_countable' Value_enc Value_dec). by intros []. Defined.

(** Dicts are not hashable: using one as a dict key raises [TypeError]. *)
Definition hashable (v : Value) : bool :=
  match v with
  | VObj _ => false
  | _ => true
  end.

(** The exception classes the code can meet; all of them derive from
    [Exception], which is what the handlers of both files catch. *)
Inductive exn : Type :=
  | KeyError
  | TypeError
  | IndexError
  | NameError
  | AttributeError
  | ZeroDivisionError
  | OtherError (name : string).

Inductive Result (A : Type) : Type :=
  | Ok (a : A)
  | Raise (e : exn).
Arguments Ok {A} a.
Arguments Raise {A} e.

Inductive level : Type := DEBUG | INFO | WARNING | ERROR.

(** ** Insertion-ordered dictionaries

    [dict.items()] iterates in insertion order, and assigning to a key that
    is already present keeps its position.  The scene mapping is iterated,
    so it is kept as an association list with exactly that discipline. *)
Section Dict.
Context {V : Type}.

Fixpoint dict_get (k : string) (d : list (string * V)) : option V :=
  match d with
  | [] => None
  | (k', v') :: d' => if decide (k = k') then Some v' else dict_get k d'
  end.

Fixpoint dict_set (k : string) (v : V) (d : list (string * V)) : list (string * V) :=
  match d with
  | [] => [(k, v)]
  | (k', v') :: d' =>
      if decide (k = k') then (k, v) :: d' else (k', v') :: dict_set k v d'
  end.

(** [for k, v in entries: d[k] = v] *)
Definition dict_update (entries : list (string * V)) (d : list (string * V))
    : list (string * V) :=
  fold_left (λ acc item, dict_set item.1 item.2 acc) entries d.

End Dict.

(** ** Effects

    A computation reads and updates the state of the host ([St]), records
    what it asks of the host as a trace of events ([Ev]), and either returns
    or raises. *)
Section Monad.
Context {St Ev : Type}.

Record Run (A : Type) : Type := mkRun {
  world_after : St;
  trace : list Ev;
  outcome : Result A
}.

Definition M (A : Type) : Type := St → Run A.

Definition ret {A} (a : A) : M A := λ w, mkRun A w [] (Ok a).

Definition bind {A B} (m : M A) (k : A → M B) : M B := λ w,
  let r := m w in
  match outcome _ r with
  | Ok a =>
      let r' := k a (world_after _ r) in
      mkRun B (world_after _ r') (trace _ r ++ trace _ r') (outcome _ r')
  | Raise e => mkRun B (world_after _ r) (trace _ r) (Raise e)
  end.

Definition raise {A} (e : exn) : M A := λ w, mkRun A w [] (Raise e).

Definition emit (e : Ev) : M unit := λ w, mkRun unit w [e] (Ok tt).

Definition get_world : M St := λ w, mkRun St w [] (Ok w).

Definition put_world (w' : St) : M unit := λ _, mkRun unit w' [] (Ok tt).

(** [try: body / except Exception as e: handler e]. *)
Definition try_except {A} (body : M A) (handler : exn → M A) : M A := λ w,
  let r := body w in
  match outcome _ r with
  | Ok a => r
  | Raise e =>
      let r' := handler e (world_after _ r) in
      mkRun A (world_after _ r') (trace _ r ++ trace _ r') (outcome _ r')
  end.

(** [d[k]] on a dict seen as a partial function: [KeyError] when absent. *)
Definition subscript {A} (o : option A) : M A :=
  match o with
  | Some a => ret a
  | None => raise KeyError
  end.

(** Hashing the key comes first in every dict access by key. *)
Definition hash_key (k : Value) : M unit :=
  if hashable k then ret tt else raise TypeError.

End Monad.

Arguments Run : clear implicits.
Arguments M : clear implicits.
Arguments mkRun {St Ev A} _ _ _.
Arguments world_after {St Ev A} _.
Arguments trace {St Ev A} _.
Arguments outcome {St Ev A} _.

#[global] Instance M_ret {St Ev} : MRet (M St Ev) := λ A, ret.
#[global] Instance M_bind {St Ev} : MBind (M St Ev) := λ A B k m, bind m k.

End Py.

(* ------------------------------------------------------------------ *)

Module Color.
Local Open Scope Z_scope.

(** [GoveeLifeLight._getRGBfromI] *)
Definition _getRGBfromI (RGBint : Z) : Z * Z * Z :=
  let blue := Z.land RGBint 255 in
  let green := Z.land (Z.shiftr RGBint 8) 255 in
  let red := Z.land (Z.shiftr RGBint 16) 255 in
  (red, green, blue).

(** [GoveeLifeLight._getIfromRGB] *)
Definition _getIfromRGB (rgb : Z * Z * Z) : Z :=
  let '(red, green, blue) := rgb in
  let RGBint := Z.shiftl red 16 + Z.shiftl green 8 + blue in
  RGBint.

End Color.

(* ------------------------------------------------------------------ *)

Module Brightness.
Local Open Scope Z_scope.

(** Modelled from the spec: the brightness property and [async_turn_on]
    rescale through [value_to_brightness] and [brightness_to_value], helpers
    of the host ([homeassistant.util.color], over [homeassistant.util.scaling])
    that are not part of the sources.  The spec describes them as a
    value-range rescaling between the device scale and the host's brightness
    scale; the definitions below follow the host's documented arithmetic: a
    range [(low, high)] has [high - low + 1] states, rescaling multiplies by
    the number of target states and divides by the number of source states,
    the host range is [(1, 255)], and the result towards the host is clamped
    to [1..255]. *)
Definition states_in_range (low_high_range : Z * Z) : Z :=
  snd low_high_range - fst low_high_range + 1.

(** Modelled from the spec: host helper [scale_ranged_value_to_int_range]
    (floor division, integers in and out). *)
Definition scale_ranged_value_to_int_range
    (source_low_high_range target_low_high_range : Z * Z) (value : Z) : Z :=
  let source_offset := fst source_low_high_range - 1 in
  let target_offset := fst target_low_high_range - 1 in
  Z.div ((value - source_offset) * states_in_range target_low_high_range)
        (states_in_range source_low_high_range)
  + target_offset.

(** Modelled from the spec: host helper [scale_to_ranged_value] (true
    division).  The quotient of the two integers is kept exact, as a
    rational, instead of being rounded to a binary float. *)
Definition scale_to_ranged_value
    (source_low_high_range target_low_high_range : Z * Z) (value : Z) : Q :=
  let source_offset := fst source_low_high_range - 1 in
  let target_offset := fst target_low_high_range - 1 in
  (inject_Z ((value - source_offset) * states_in_range target_low_high_range)
   / inject_Z (states_in_range source_low_high_range)
   + inject_Z target_offset)%Q.

(** Modelled from the spec: host helper [value_to_brightness]. *)
Definition value_to_brightness (low_high_range : Z * Z) (value : Z) : Z :=
  Z.min 255
    (Z.max 1 (scale_ranged_value_to_int_range low_high_range (1, 255) value)).

(** Modelled from the spec: host helper [brightness_to_value]. *)
Definition brightness_to_value (low_high_range : Z * Z) (brightness : Z) : Q :=
  scale_to_ranged_value (1, 255) low_high_range brightness.

(** The device value [async_turn_on] sends for a host brightness:
    [math.ceil(brightness_to_value(self._brightness_scale, brightness))]. *)
Definition device_brightness (low_high_range : Z * Z) (brightness : Z) : Z :=
  Qceiling (brightness_to_value low_high_range brightness).

(** ** The same value in binary64

    Python carries the true division and the addition out in binary64.  The
    three definitions below redo [device_brightness] that way, for integers
    small enough to convert exactly (below [2^53] in magnitude), so that the
    exact model above can be compared with it on concrete scales. *)
Definition float_of_Z (z : Z) : float :=
  if Z.ltb z 0 then PrimFloat.opp (PrimFloat.of_uint63 (Uint63.of_Z (- z)))
  else PrimFloat.of_uint63 (Uint63.of_Z z).

(** [math.ceil] of a float; it raises on infinities and NaN ([None]). *)
Definition ceil_float (f : float) : option Z :=
  match Prim2SF f with
  | S754_zero _ => Some 0
  | S754_finite s m e =>
      let signed := if s then Z.neg m else Z.pos m in
      if Z.leb 0 e then Some (signed * 2 ^ e)
      else Some (- ((- signed) / 2 ^ (- e)))
  | _ => None
  end.

Definition device_brightness_float (low_high_range : Z * Z) (brightness : Z) : option Z :=
  let source_offset := 1 - 1 in
  let target_offset := fst low_high_range - 1 in
  ceil_float
    (PrimFloat.add
       (PrimFloat.div
          (float_of_Z ((brightness - source_offset) * states_in_range low_high_range))
          (float_of_Z 255))
       (float_of_Z target_offset)).

End Brightness.

(* ------------------------------------------------------------------ *)

Module Light.
Import Py.
Local Open Scope Z_scope.

(** Host constants ([homeassistant.const], [homeassistant.components.light]). *)
Definition STATE_ON : string := "on".
Definition STATE_OFF : string := "off".
Definition STATE_UNKNOWN : string := "unknown".
Definition SUPPORT_EFFECT : Z := 4.

Inductive ColorMode : Type := ONOFF | BRIGHTNESS | RGB | COLOR_TEMP.

#[global] Instance ColorMode_eq_dec : EqDecision ColorMode.
Proof. solve_decision. Defined.

Definition ColorMode_enc (c : ColorMode) : nat :=
  match c with ONOFF => 0 | BRIGHTNESS => 1 | RGB => 2 | COLOR_TEMP => 3 end%nat.

Definition ColorMode_dec (n : nat) : ColorMode :=
  match n with O => ONOFF | 1%nat => BRIGHTNESS | 2%nat => RGB | _ => COLOR_TEMP end.

#[global] Instance ColorMode_countable : Countable ColorMode.
Proof. apply (inj_countable' ColorMode_enc ColorMode_dec). by intros []. Defined.

(** The dict [{"type": .., "instance": .., "value": ..}]: both a capability
    command handed to the remote dispatcher and an entry of the scene
    mapping. *)
Record StateCapability : Type := {
  sc_type : string;
  sc_instance : string;
  sc_value : Value
}.

#[global] Instance StateCapability_eq_dec : EqDecision StateCapability.
Proof. solve_decision. Defined.

(** One entry of a dynamic-scene capability's [options]; either key may be
    missing. *)
Record SceneOption : Type := {
  opt_name : option string;
  opt_value : option Value
}.

(** A capability descriptor [{type, instance, parameters}]; of the
    parameters only [options] is read ([.get('options', [])]). *)
Record Capability : Type := {
  cap_type : string;
  cap_instance : string;
  cap_options : list SceneOption
}.

(** The attributes of [GoveeLifeLight] that [light.py] reads or writes.
    [_attr_effect_list] is a list: the class default [None] and the empty
    list are both falsy, and the initializer always installs a list.
    [_state_mapping], [_state_mapping_set] and [_brightness_scale] are only
    read in this file: whatever holds them is taken as given.
    [_attr_supported_color_modes] is the set the class declares; the
    initializer adds to it in place, so every light of the class shares it
    (nothing below depends on that). *)
Record GoveeLifeLight : Type := {
  capabilities : list Capability;
  _state_mapping : gmap Value string;
  _state_mapping_set : gmap string Value;
  _attr_supported_color_modes : gset ColorMode;
  _attr_effect_list : list string;
  _scene_mapping : list (string * StateCapability);
  _attr_supported_features : Z;
  _brightness_scale : Z * Z
}.

(** ** [_init_platform_specific] *)

Definition add_color_mode (m : ColorMode) (self : GoveeLifeLight) : GoveeLifeLight :=
  {| capabilities := capabilities self;
     _state_mapping := _state_mapping self;
     _state_mapping_set := _state_mapping_set self;
     _attr_supported_color_modes := {[ m ]} ∪ _attr_supported_color_modes self;
     _attr_effect_list := _attr_effect_list self;
     _scene_mapping := _scene_mapping self;
     _attr_supported_features := _attr_supported_features self;
     _brightness_scale := _brightness_scale self |}.

Definition set_scenes (effects : list string) (mapping : list (string * StateCapability))
    (features : Z) (self : GoveeLifeLight) : GoveeLifeLight :=
  {| capabilities := capabilities self;
     _state_mapping := _state_mapping self;
     _state_mapping_set := _state_mapping_set self;
     _attr_supported_color_modes := _attr_supported_color_modes self;
     _attr_effect_list := effects;
     _scene_mapping := mapping;
     _attr_supported_features := features;
     _brightness_scale := _brightness_scale self |}.

(** [f"{scene_instance}_{option['name']}"] *)
Definition scene_name_of (scene_instance name : string) : string :=
  scene_instance +:+ "_" +:+ name.

(** The inner loop [for option in options]. *)
Fixpoint add_scene_options (scene_instance : string) (options : list SceneOption)
    (self : GoveeLifeLight) : GoveeLifeLight :=
  match options with
  | [] => self
  | option :: rest =>
      let self' :=
        match opt_name option, opt_value option with
        | Some name, Some value =>
            let scene_name := scene_name_of scene_instance name in
            set_scenes
              (_attr_effect_list self ++ [scene_name])
              (dict_set scene_name
                 {| sc_type := "devices.capabilities.dynamic_scene";
                    sc_instance := scene_instance;
                    sc_value := value |}
                 (_scene_mapping self))
              (_attr_supported_features self)
              self
        | _, _ => self
        end in
      add_scene_options scene_instance rest self'
  end.

(** The body of [for cap in capabilities]. *)
Definition init_capability (self : GoveeLifeLight) (cap : Capability) : GoveeLifeLight :=
  if bool_decide (cap_type cap = "devices.capabilities.on_off") then
    add_color_mode ONOFF self
  else if bool_decide (cap_type cap = "devices.capabilities.range")
          && bool_decide (cap_instance cap = "brightness") then
    add_color_mode BRIGHTNESS self
  else if bool_decide (cap_type cap = "devices.capabilities.color_setting")
          && bool_decide (cap_instance cap = "colorRgb") then
    add_color_mode RGB self
  else if bool_decide (cap_type cap = "devices.capabilities.color_setting")
          && bool_decide (cap_instance cap = "colorTemperatureK") then
    add_color_mode COLOR_TEMP self
  else if bool_decide (cap_type cap = "devices.capabilities.dynamic_scene") then
    let self' :=
      set_scenes (_attr_effect_list self) (_scene_mapping self)
        (Z.lor (_attr_supported_features self) SUPPORT_EFFECT) self in
    let options := cap_options cap in
    let scene_instance := cap_instance cap in
    add_scene_options scene_instance options self'
  else self.

Definition _init_platform_specific (self : GoveeLifeLight) : GoveeLifeLight :=
  let capabilities := capabilities self in
  let self := set_scenes [] [] 0 self in
  fold_left init_capability capabilities self.

(** ** The host around the entity *)

(** What an awaited remote control call gives back. *)
Inductive Reply : Type :=
  | Returned (ok : bool)
  | Raised (e : exn).

Inductive Event : Type :=
  | ControlDevice (state_capability : StateCapability) (reply : Reply)
  | WriteHaState
  | Log (lvl : level) (msg : string)
  | LogException (msg : string) (e : exn).

(** [kwargs] of [async_turn_on], as the host validates them. *)
Record TurnOnArgs : Type := {
  ATTR_EFFECT : option string;
  ATTR_BRIGHTNESS : option Z;
  ATTR_COLOR_TEMP_KELVIN : option Z;
  ATTR_RGB_COLOR : option (Z * Z * Z)
}.

Section Entity.
Context {World : Type}.

(** The cached-state reader, keyed by capability type and instance (the
    entry and device ids are fixed for one entity), and the remote command
    function; both live in [utils.py], outside the sources, and are taken as
    given.  The remote call may change the world, the cache included. *)
Variable GoveeAPI_GetCachedStateValue : World → string → string → Value.
Variable async_GoveeAPI_ControlDevice : World → StateCapability → World * Reply.

Definition get_cached (cap_type instance : string) : M World Event Value := λ w,
  mkRun w [] (Ok (GoveeAPI_GetCachedStateValue w cap_type instance)).

Definition control_device (state_capability : StateCapability) : M World Event bool := λ w,
  let '(w', reply) := async_GoveeAPI_ControlDevice w state_capability in
  mkRun w' [ControlDevice state_capability reply]
    (match reply with Returned ok => Ok ok | Raised e => Raise e end).

Definition async_write_ha_state : M World Event unit := emit WriteHaState.

Definition log (lvl : level) (msg : string) : M World Event unit := emit (Log lvl msg).

(** ** Properties *)

Definition state (self : GoveeLifeLight) : M World Event string :=
  value ← get_cached "devices.capabilities.on_off" "powerSwitch";
  hash_key value;;
  let v := default STATE_UNKNOWN (_state_mapping self !! value) in
  (if bool_decide (v = STATE_UNKNOWN) then
     log WARNING "state: invalid value";;
     log DEBUG "state: valid are"
   else mret tt);;
  mret v.

Definition is_on (self : GoveeLifeLight) : M World Event bool :=
  v ← state self;
  mret (bool_decide (v = STATE_ON)).

Definition brightness (self : GoveeLifeLight) : M World Event Z :=
  value ← get_cached "devices.capabilities.range" "brightness";
  match value with
  | VInt n =>
      if bool_decide (Brightness.states_in_range (_brightness_scale self) = 0)
      then raise ZeroDivisionError
      else mret (Brightness.value_to_brightness (_brightness_scale self) n)
  | _ => raise TypeError
  end.

Definition color_temp_kelvin (self : GoveeLifeLight) : M World Event Value :=
  get_cached "devices.capabilities.color_setting" "colorTemperatureK".

Definition rgb_color (self : GoveeLifeLight) : M World Event (Z * Z * Z) :=
  value ← get_cached "devices.capabilities.color_setting" "colorRgb";
  match value with
  | VInt n => mret (Color._getRGBfromI n)
  | _ => raise TypeError
  end.

(** The inner loop of [effect]: the first item of the scene mapping, in
    insertion order, whose instance and value both match. *)
Fixpoint find_scene (items : list (string * StateCapability))
    (scene_type : string) (value : Value) : option string :=
  match items with
  | [] => None
  | (scene_name, scene_data) :: rest =>
      if bool_decide (sc_instance scene_data = scene_type)
         && bool_decide (sc_value scene_data = value)
      then Some scene_name
      else find_scene rest scene_type value
  end.

(** The outer loop of [effect] over the scene types still to check. *)
Fixpoint effect_scan (self : GoveeLifeLight) (scene_types : list string)
    : M World Event (option string) :=
  match scene_types with
  | [] => mret None
  | scene_type :: rest =>
      value ← get_cached "devices.capabilities.dynamic_scene" scene_type;
      log DEBUG "Checking scene type";;
      if bool_decide (value ≠ VNone) then
        match find_scene (_scene_mapping self) scene_type value with
        | Some scene_name =>
            log DEBUG "Found active scene";;
            mret (Some scene_name)
        | None => effect_scan self rest
        end
      else effect_scan self rest
  end.

Definition scene_types : list string := ["lightScene"; "diyScene"; "snapshot"].

Definition effect (self : GoveeLifeLight) : M World Event (option string) :=
  if bool_decide (_attr_effect_list self = []) then
    log DEBUG "No effects available";;
    mret None
  else effect_scan self scene_types.

Definition effect_list (self : GoveeLifeLight) : M World Event (list string) :=
  log DEBUG "Returning effect list";;
  mret (_attr_effect_list self).

Definition supported_features (self : GoveeLifeLight) : Z :=
  _attr_supported_features self.

(** ** Commands *)

(** [if await async_GoveeAPI_ControlDevice(..., state_capability):
        self.async_write_ha_state()] *)
Definition control_and_notify (state_capability : StateCapability) : M World Event unit :=
  ok ← control_device state_capability;
  if ok : bool then async_write_ha_state else mret tt.

(** [if ATTR_EFFECT in kwargs: ...] *)
Definition effect_command (self : GoveeLifeLight) (kwargs : TurnOnArgs)
    : M World Event unit :=
  match ATTR_EFFECT kwargs with
  | Some effect_name =>
      match dict_get effect_name (_scene_mapping self) with
      | Some scene_data =>
          let state_capability :=
            {| sc_type := "devices.capabilities.dynamic_scene";
               sc_instance := sc_instance scene_data;
               sc_value := sc_value scene_data |} in
          log DEBUG "Setting scene";;
          control_and_notify state_capability
      | None => mret tt
      end
  | None => mret tt
  end.

(** [if ATTR_BRIGHTNESS in kwargs: ...] *)
Definition brightness_command (self : GoveeLifeLight) (kwargs : TurnOnArgs)
    : M World Event unit :=
  match ATTR_BRIGHTNESS kwargs with
  | Some brightness =>
      control_and_notify
        {| sc_type := "devices.capabilities.range";
           sc_instance := "brightness";
           sc_value :=
             VInt (Brightness.device_brightness (_brightness_scale self) brightness) |}
  | None => mret tt
  end.

(** [if ATTR_COLOR_TEMP_KELVIN in kwargs: ...] *)
Definition color_temp_command (kwargs : TurnOnArgs) : M World Event unit :=
  match ATTR_COLOR_TEMP_KELVIN kwargs with
  | Some kelvin =>
      control_and_notify
        {| sc_type := "devices.capabilities.color_setting";
           sc_instance := "colorTemperatureK";
           sc_value := VInt kelvin |}
  | None => mret tt
  end.

(** [if ATTR_RGB_COLOR in kwargs: ...] *)
Definition rgb_command (kwargs : TurnOnArgs) : M World Event unit :=
  match ATTR_RGB_COLOR kwargs with
  | Some rgb =>
      control_and_notify
        {| sc_type := "devices.capabilities.color_setting";
           sc_instance := "colorRgb";
           sc_value := VInt (Color._getIfromRGB rgb) |}
  | None => mret tt
  end.

(** The four attribute blocks of [async_turn_on], in source order. *)
Definition attribute_commands (self : GoveeLifeLight) (kwargs : TurnOnArgs)
    : M World Event unit :=
  effect_command self kwargs;;
  brightness_command self kwargs;;
  color_temp_command kwargs;;
  rgb_command kwargs.

(** [if not self.is_on: ... else: ...], the last block of [async_turn_on]. *)
Definition power_on_command (self : GoveeLifeLight) : M World Event unit :=
  on ← is_on self;
  if negb on then
    value ← subscript (_state_mapping_set self !! STATE_ON);
    control_and_notify
      {| sc_type := "devices.capabilities.on_off";
         sc_instance := "powerSwitch";
         sc_value := value |}
  else log DEBUG "async_turn_on: device already on".

(** The [try] block of [async_turn_on]. *)
Definition async_turn_on_body (self : GoveeLifeLight) (kwargs : TurnOnArgs)
    : M World Event unit :=
  log DEBUG "async_turn_on";;
  log DEBUG "async_turn_on: kwargs";;
  attribute_commands self kwargs;;
  power_on_command self.

Definition async_turn_on (self : GoveeLifeLight) (kwargs : TurnOnArgs)
    : M World Event unit :=
  try_except (async_turn_on_body self kwargs)
    (λ e, emit (LogException "async_turn_on failed" e)).

(** [if self.is_on: ... else: ...], the block of [async_turn_off]. *)
Definition power_off_command (self : GoveeLifeLight) : M World Event unit :=
  on ← is_on self;
  if on : bool then
    value ← subscript (_state_mapping_set self !! STATE_OFF);
    control_and_notify
      {| sc_type := "devices.capabilities.on_off";
         sc_instance := "powerSwitch";
         sc_value := value |}
  else log DEBUG "async_turn_on: device already off".

(** The [try] block of [async_turn_off]. *)
Definition async_turn_off_body (self : GoveeLifeLight) : M World Event unit :=
  log DEBUG "async_turn_off";;
  log DEBUG "async_turn_off: kwargs";;
  power_off_command self.

Definition async_turn_off (self : GoveeLifeLight) : M World Event unit :=
  try_except (async_turn_off_body self)
    (λ e, emit (LogException "async_turn_off failed" e)).

End Entity.

End Light.

(* ------------------------------------------------------------------ *)

Module Services.
Import Py.

(** Modelled from the spec: the call-data field names ([scan_interval] is
    the host's [CONF_SCAN_INTERVAL]; [entry_id] is [CONF_ENTRY_ID] of
    [const.py], which is not part of the sources). *)
Definition CONF_SCAN_INTERVAL : string := "scan_interval".
Definition CONF_ENTRY_ID : string := "entry_id".

(** The service functions of the module, as first-class values. *)
Inductive ServiceFn : Type :=
  | async_service_SetPollInterval_fn
  | async_service_SetSegmentColors_fn
  | other_service_fn (name : string).

(** [functools.partial(service, hass)] *)
Inductive Handler : Type :=
  | partial (service : ServiceFn).

(** What [hass.data[DOMAIN]] holds under a key: the data of a config entry
    (a dict) or some other object, such as an entity. *)
Inductive DomainItem : Type :=
  | EntryData (d : gmap string Value)
  | EntityObject (e : Light.GoveeLifeLight).

(** Python truthiness: an empty dict is falsy, an object is truthy. *)
Definition truthy (i : DomainItem) : bool :=
  match i with
  | EntryData d => negb (bool_decide (d = ∅))
  | EntityObject _ => true
  end.

(** The part of [hass] the services touch: [hass.data] and the registry
    behind [hass.services]. *)
Record Hass : Type := {
  data : gmap string (gmap Value DomainItem);
  services : gmap (string * string) Handler
}.

Record ServiceCall : Type := {
  call_data : gmap string Value;
  call_target : gmap string (list Value)
}.

Inductive Event : Type :=
  | Sleep0
  | AsyncRegister (domain name : string) (handler : Handler)
  | Log (lvl : level) (msg : string)
  | LogException (msg : string) (e : exn).

Definition log (lvl : level) (msg : string) : M Hass Event unit := emit (Log lvl msg).

(** Modelled from the spec: the host's service registry, one handler per
    (domain, name); [has_service] tests for a registration and
    [async_register] installs one. *)
Definition has_service (domain name : string) : M Hass Event bool := λ hass,
  mkRun hass [] (Ok (bool_decide (is_Some (services hass !! (domain, name))))).

Definition async_register (domain name : string) (handler : Handler) : M Hass Event unit :=
  λ hass,
  mkRun {| data := data hass; services := <[(domain, name) := handler]> (services hass) |}
    [AsyncRegister domain name handler] (Ok tt).

Section Domain.
(** [DOMAIN] of [const.py]. *)
Variable DOMAIN : string.

(** The [try] block of [async_registerService]. *)
Definition async_registerService_body (name : string) (service : ServiceFn)
    : M Hass Event unit :=
  log DEBUG "async_registerService";;
  emit Sleep0;;
  registered ← has_service DOMAIN name;
  if negb registered then
    async_register DOMAIN name (partial service)
  else log DEBUG "async_registerServic: service already exists".

Definition async_registerService (name : string) (service : ServiceFn)
    : M Hass Event unit :=
  try_except (async_registerService_body name service)
    (λ e, emit (LogException "async_registerService: failed" e)).

(** [hass.data[DOMAIN][entry_id][CONF_SCAN_INTERVAL] = scan_interval] *)
Definition store_scan_interval (entry_id scan_interval : Value) : M Hass Event unit :=
  hass ← get_world;
  domain_data ← subscript (data hass !! DOMAIN);
  hash_key entry_id;;
  item ← subscript ((domain_data : gmap Value DomainItem) !! entry_id);
  match item with
  | EntryData d =>
      put_world
        {| data :=
             <[DOMAIN :=
                 <[entry_id := EntryData (<[CONF_SCAN_INTERVAL := scan_interval]> d)]>
                   domain_data]> (data hass);
           services := services hass |}
  | EntityObject _ => raise TypeError
  end.

(** The [try] block of [async_service_SetPollInterval]. *)
Definition async_service_SetPollInterval_body (call : ServiceCall) : M Hass Event unit :=
  let scan_interval := default VNone (call_data call !! CONF_SCAN_INTERVAL) in
  if bool_decide (scan_interval = VNone) then
    log ERROR "async_service_SetPollInterval: scan_interval is a required parameter"
  else
    let entry_id := default VNone (call_data call !! CONF_ENTRY_ID) in
    if bool_decide (entry_id = VNone) then
      log ERROR "async_service_SetPollInterval: entry_id is a required parameter"
    else
      store_scan_interval entry_id scan_interval;;
      log INFO "async_service_SetPollInterval: Poll interval updated".

Definition async_service_SetPollInterval (call : ServiceCall) : M Hass Event unit :=
  try_except (async_service_SetPollInterval_body call)
    (λ e, emit (LogException "async_service_SetPollInterval: failed" e)).

(** [call.target.get("entity_id")[0]] *)
Definition first_entity_id (call : ServiceCall) : M Hass Event Value :=
  match call_target call !! "entity_id" with
  | None => raise TypeError
  | Some [] => raise IndexError
  | Some (entity_id :: _) => mret entity_id
  end.

(** The [try] block of [async_service_SetSegmentColors].  [services.py]
    never imports [async_GoveeAPI_ControlDevice], so evaluating that name,
    the first step of the awaited call, raises [NameError]. *)
Definition async_service_SetSegmentColors_body (call : ServiceCall) : M Hass Event unit :=
  entity_id ← first_entity_id call;
  hass ← get_world;
  domain_data ← subscript (data hass !! DOMAIN);
  hash_key entity_id;;
  let entity := (domain_data : gmap Value DomainItem) !! entity_id in
  if negb (from_option truthy false entity) then
    log ERROR "Entity not found"
  else
    let segments := call_data call !! "segments" in
    raise NameError.

Definition async_service_SetSegmentColors (call : ServiceCall) : M Hass Event unit :=
  try_except (async_service_SetSegmentColors_body call)
    (λ e, emit (LogException "Failed to set segment colors" e)).

Definition async_setup_services : M Hass Event unit :=
  async_registerService "set_segment_colors" async_service_SetSegmentColors_fn.

End Domain.

(** The registrations a trace asked of the host, in order. *)
Definition registrations (t : list Event) : list (string * string * Handler) :=
  omap (λ ev, match ev with
              | AsyncRegister domain name handler => Some (domain, name, handler)
              | _ => None
              end) t.

End Services.


(* ------------------------------------------------------------------ *)

(** The vocabulary of the statements about the light entity: what the
    initializer is meant to produce and what the effect property is meant
    to return, written as list comprehensions over the input. *)
Module LightSpec.
Import Py Light.

(** A dynamic-scene option with both a name and a value yields one scene:
    its synthesized name and the (type, instance, value) it stands for. *)
Definition option_entry (scene_instance : string) (option : SceneOption)
    : list (string * StateCapability) :=
  match opt_name option, opt_value option with
  | Some name, Some value =>
      [(scene_name_of scene_instance name,
        {| sc_type := "devices.capabilities.dynamic_scene";
           sc_instance := scene_instance;
           sc_value := value |})]
  | _, _ => []
  end.

Definition capability_entries (cap : Capability) : list (string * StateCapability) :=
  if bool_decide (cap_type cap = "devices.capabilities.dynamic_scene")
  then flat_map (option_entry (cap_instance cap)) (cap_options cap)
  else [].

(** All scenes of a capability list, in the order of the list. *)
Definition scene_entries (caps : list Capability) : list (string * StateCapability) :=
  flat_map capability_entries caps.

Definition scene_names (caps : list Capability) : list string :=
  (scene_entries caps).*1.

(** A scene instance without the separator character, such as lightScene,
    diyScene and snapshot. *)
Fixpoint underscore_free (s : string) : bool :=
  match s with
  | EmptyString => true
  | String a s' => negb (String.eqb (String a EmptyString) "_") && underscore_free s'
  end.

(** The names of the mapping entries, in mapping order, that match a scene
    type and the value cached for it; a cached [None] matches nothing. *)
Definition matching_names (mapping : list (string * StateCapability))
    (scene_type : string) (value : Value) : list string :=
  if bool_decide (value = VNone) then []
  else
    (filter (λ item, sc_instance item.2 = scene_type ∧ sc_value item.2 = value)
       mapping).*1.

(** The active effect as the spec words it: none when there are no effects;
    otherwise the first match, scene types taken in the order lightScene,
    diyScene, snapshot. *)
Definition effect_spec {World : Type} (cached : World → string → string → Value)
    (self : GoveeLifeLight) (w : World) : option string :=
  if bool_decide (_attr_effect_list self = []) then None
  else
    head (flat_map
            (λ scene_type,
               matching_names (_scene_mapping self) scene_type
                 (cached w "devices.capabilities.dynamic_scene" scene_type))
            scene_types).

(** The kind of a capability command, and the order in which
    [async_turn_on] is meant to issue them. *)
Inductive Kind : Type := KEffect | KBrightness | KColorTemp | KRgb | KPower | KOther.

Definition kind_of (c : StateCapability) : Kind :=
  if bool_decide (sc_type c = "devices.capabilities.dynamic_scene") then KEffect
  else if bool_decide (sc_type c = "devices.capabilities.range") then KBrightness
  else if bool_decide (sc_type c = "devices.capabilities.color_setting") then
    if bool_decide (sc_instance c = "colorTemperatureK") then KColorTemp
    else if bool_decide (sc_instance c = "colorRgb") then KRgb
    else KOther
  else if bool_decide (sc_type c = "devices.capabilities.on_off") then KPower
  else KOther.

Definition rank (k : Kind) : nat :=
  match k with
  | KEffect => 0
  | KBrightness => 1
  | KColorTemp => 2
  | KRgb => 3
  | KPower => 4
  | KOther => 5
  end.

(** The remote calls of a trace, in the order they were issued. *)
Definition calls (t : list Event) : list StateCapability :=
  omap (λ ev, match ev with ControlDevice c _ => Some c | _ => None end) t.

Definition kinds (t : list Event) : list Kind := kind_of <$> calls t.

(** The attribute commands a turn-on request asks for, in the order effect,
    brightness, colour temperature, RGB; an effect counts when its name is
    one of the scene mapping. *)
Definition requested_kinds (self : GoveeLifeLight) (kwargs : TurnOnArgs) : list Kind :=
  match ATTR_EFFECT kwargs with
  | Some effect_name =>
      if dict_get effect_name (_scene_mapping self) is Some _ then [KEffect] else []
  | None => []
  end ++
  (if ATTR_BRIGHTNESS kwargs is Some _ then [KBrightness] else []) ++
  (if ATTR_COLOR_TEMP_KELVIN kwargs is Some _ then [KColorTemp] else []) ++
  (if ATTR_RGB_COLOR kwargs is Some _ then [KRgb] else []).

(** A request that carries a brightness and nothing else. *)
Definition brightness_only (brightness : Z) : TurnOnArgs :=
  {| ATTR_EFFECT := None;
     ATTR_BRIGHTNESS := Some brightness;
     ATTR_COLOR_TEMP_KELVIN := None;
     ATTR_RGB_COLOR := None |}.

(** The two commands such a request can lead to. *)
Definition brightness_capability (self : GoveeLifeLight) (brightness : Z) : StateCapability :=
  {| sc_type := "devices.capabilities.range";
     sc_instance := "brightness";
     sc_value := VInt (Brightness.device_brightness (_brightness_scale self) brightness) |}.

Definition power_capability (value : Value) : StateCapability :=
  {| sc_type := "devices.capabilities.on_off";
     sc_instance := "powerSwitch";
     sc_value := value |}.

(** The cached power value maps to "on". *)
Definition cached_on {World : Type} (cached : World → string → string → Value)
    (self : GoveeLifeLight) (w : World) : Prop :=
  _state_mapping self !! cached w "devices.capabilities.on_off" "powerSwitch" = Some STATE_ON.

#[global] Instance cached_on_dec {World : Type} (cached : World → string → string → Value)
    (self : GoveeLifeLight) (w : World) : Decision (cached_on cached self w).
Proof. unfold cached_on. apply _. Defined.

(** A trace without its log records: remote calls and notifications. *)
Definition is_io (ev : Event) : bool :=
  match ev with
  | ControlDevice _ _ | WriteHaState => true
  | _ => false
  end.

Definition io (t : list Event) : list Event := filter (λ ev, is_io ev) t.

(** Every remote call is followed at once by a state notification exactly
    when it returned success, and there is no other notification. *)
Inductive notified_iff_success : list Event → Prop :=
  | nis_nil : notified_iff_success []
  | nis_success c t :
      notified_iff_success t →
      notified_iff_success (ControlDevice c (Returned true) :: WriteHaState :: t)
  | nis_failure c r t :
      r ≠ Returned true →
      notified_iff_success t →
      notified_iff_success (ControlDevice c r :: t).

(** A computation issues the kinds [ks]: whatever happens, the remote
    calls it makes are, in order, a prefix of [ks] (an exception cuts the
    sequence short); when it returns they are all of [ks]; and each call is
    notified exactly when it succeeded. *)
Definition issues {World A : Type} (ks : list Kind) (m : M World Event A) : Prop :=
  ∀ w,
    kinds (trace (m w)) `prefix_of` ks ∧
    (∀ a, outcome (m w) = Ok a → kinds (trace (m w)) = ks) ∧
    notified_iff_success (io (trace (m w))).

(** A light as the class attributes leave it before initialization, for a
    given capability list and brightness scale. *)
Definition new_light (caps : list Capability) (scale : Z * Z) : GoveeLifeLight :=
  {| capabilities := caps;
     _state_mapping := ∅;
     _state_mapping_set := ∅;
     _attr_supported_color_modes := ∅;
     _attr_effect_list := [];
     _scene_mapping := [];
     _attr_supported_features := 0;
     _brightness_scale := scale |}.

End LightSpec.

(* ------------------------------------------------------------------ *)

(** Concrete devices, worlds and calls on which the statements below are
    exercised. *)
Module Fixtures.
Import Py Light LightSpec.
Local Open Scope Z_scope.

Definition scene_option (name : string) (value : Value) : SceneOption :=
  {| opt_name := Some name; opt_value := Some value |}.

Definition scene_capability (instance : string) (options : list SceneOption) : Capability :=
  {| cap_type := "devices.capabilities.dynamic_scene";
     cap_instance := instance;
     cap_options := options |}.

(** A light strip with two preset scenes, one of them anonymous, and one
    DIY scene. *)
Definition strip_caps : list Capability :=
  [ {| cap_type := "devices.capabilities.on_off";
       cap_instance := "powerSwitch";
       cap_options := [] |};
    {| cap_type := "devices.capabilities.range";
       cap_instance := "brightness";
       cap_options := [] |};
    scene_capability "lightScene"
      [ scene_option "Sunrise" (VObj {[ "id" := 3853; "paramId" := 4280 ]});
        {| opt_name := None; opt_value := Some (VInt 7) |};
        scene_option "Sunset" (VObj {[ "id" := 3854; "paramId" := 4281 ]}) ];
    scene_capability "diyScene" [ scene_option "Sunrise" (VInt 11) ] ].

(** Two DIY scenes that the user gave the same name. *)
Definition twin_caps : list Capability :=
  [ scene_capability "diyScene"
      [ scene_option "Party" (VInt 1); scene_option "Party" (VInt 2) ] ].

(** A world that is just the cache, keyed by capability type and instance. *)
Definition cache_read (w : gmap (string * string) Value) (cap_type instance : string)
    : Value :=
  default VNone (w !! (cap_type, instance)).

(** A device that applies every command: the cache takes the new value. *)
Definition obedient_device (w : gmap (string * string) Value) (c : StateCapability)
    : gmap (string * string) Value * Reply :=
  (<[(sc_type c, sc_instance c) := sc_value c]> w, Returned true).

(** A device that is out of reach: the remote call reports failure. *)
Definition deaf_device (w : gmap (string * string) Value) (c : StateCapability)
    : gmap (string * string) Value * Reply :=
  (w, Returned false).

(** A remote function that raises. *)
Definition broken_device (w : gmap (string * string) Value) (c : StateCapability)
    : gmap (string * string) Value * Reply :=
  (w, Raised (OtherError "ClientError")).

(** The strip, initialized, with the vendor's power values 1 and 0 mapped
    to the host states. *)
Definition strip : GoveeLifeLight :=
  _init_platform_specific
    {| capabilities := strip_caps;
       _state_mapping := {[ VInt 1 := STATE_ON; VInt 0 := STATE_OFF ]};
       _state_mapping_set := {[ STATE_ON := VInt 1; STATE_OFF := VInt 0 ]};
       _attr_supported_color_modes := ∅;
       _attr_effect_list := [];
       _scene_mapping := [];
       _attr_supported_features := 0;
       _brightness_scale := (1, 100) |}.

Definition power_cached (value : Value) : gmap (string * string) Value :=
  {[ ("devices.capabilities.on_off", "powerSwitch") := value ]}.

(** The strip is off and plays the DIY scene 11. *)
Definition off_world : gmap (string * string) Value :=
  <[("devices.capabilities.dynamic_scene", "diyScene") := VInt 11]> (power_cached (VInt 0)).

Definition on_world : gmap (string * string) Value := power_cached (VInt 1).

(** The vendor reported a power value the mapping does not know. *)
Definition odd_world : gmap (string * string) Value := power_cached (VStr "").

(** ** Services *)

Definition GOVEE : string := "goveelife".

(** One config entry polling every 60 seconds, and the strip stored under
    its entity id. *)
Definition home : Services.Hass :=
  {| Services.data :=
       {[ GOVEE :=
            {[ VStr "entry1" := Services.EntryData {[ "scan_interval" := VInt 60 ]};
               VStr "light.strip" := Services.EntityObject strip ]} ]};
     Services.services := ∅ |}.

(** The interval stored for an entry, if any. *)
Definition scan_interval_of (domain : string) (entry_id : Value) (hass : Services.Hass)
    : option Value :=
  match Services.data hass !! domain with
  | Some domain_data =>
      match (domain_data : gmap Value Services.DomainItem) !! entry_id with
      | Some (Services.EntryData d) => d !! Services.CONF_SCAN_INTERVAL
      | _ => None
      end
  | None => None
  end.

Definition poll_call (fields : gmap string Value) : Services.ServiceCall :=
  {| Services.call_data := fields; Services.call_target := ∅ |}.

Definition segment_call (entity_ids : list Value) : Services.ServiceCall :=
  {| Services.call_data := {[ "segments" := VObj {[ "segment" := 0; "rgb" := 255 ]} ]};
     Services.call_target := {[ "entity_id" := entity_ids ]} |}.

End Fixtures.

(* ------------------------------------------------------------------ *)

(** [async_setup_entry] of [light.py]: the platform set-up that turns the
    configured devices into light entities. *)
Module Setup.
Import Py Light.

Definition platform_device_types : list string := ["devices.types.light"].

(** One entry of the device list: [device_cfg.get('type', STATE_UNKNOWN)]
    and [device_cfg.get('device')] are all the set-up reads of it; the rest
    goes to the constructor untouched. *)
Record DeviceCfg : Type := {
  cfg_type : option string;
  cfg_device : Value;
  cfg_capabilities : list Capability
}.

Inductive Event : Type :=
  | Sleep0
  | AddEntities (entities : list GoveeLifeLight)
  | Log (lvl : level) (msg : string)
  | LogException (msg : string) (e : exn).

(** What [async_setup_entry] hands back: [False] or [None]. *)
Inductive SetupReturn : Type := ReturnFalse | ReturnNone.

Section Platform.
Context {Coordinator : Type}.

(** [hass.data[DOMAIN][entry.entry_id]] as far as the set-up reads it: the
    values under [CONF_DEVICES] and [CONF_COORDINATORS], each possibly
    missing. *)
Record EntryData : Type := {
  CONF_DEVICES : option (list DeviceCfg);
  CONF_COORDINATORS : option (gmap Value Coordinator)
}.

(** The constructor [GoveeLifeLight(hass, entry, coordinator, device_cfg,
    platform=platform)]; its body is in [entities.py], outside the sources,
    and may raise. *)
Variable GoveeLifeLight_new : Coordinator → DeviceCfg → Result GoveeLifeLight.

Definition log (lvl : level) (msg : string) : M unit Event unit := emit (Log lvl msg).

Definition construct (coordinator : Coordinator) (device_cfg : DeviceCfg)
    : M unit Event GoveeLifeLight :=
  match GoveeLifeLight_new coordinator device_cfg with
  | Ok entity => mret entity
  | Raise e => raise e
  end.

(** The [try] block of the loop for one device: the entity list after it. *)
Definition setup_device (entry_data : EntryData) (device_cfg : DeviceCfg)
    (entities : list GoveeLifeLight) : M unit Event (list GoveeLifeLight) :=
  if negb (bool_decide (default STATE_UNKNOWN (cfg_type device_cfg) ∈ platform_device_types))
  then mret entities
  else
    let d := cfg_device device_cfg in
    log DEBUG "async_setup_entry: Setup device";;
    coordinators ← subscript (CONF_COORDINATORS entry_data);
    hash_key d;;
    coordinator ← subscript ((coordinators : gmap Value Coordinator) !! d);
    entity ← construct coordinator device_cfg;
    let entities := entities ++ [entity] in
    emit Sleep0;;
    mret entities.

(** [for device_cfg in api_devices: try: ... except Exception: return False];
    [None] stands for the early [return False]. *)
Fixpoint setup_devices (entry_data : EntryData) (api_devices : list DeviceCfg)
    (entities : list GoveeLifeLight) : M unit Event (option (list GoveeLifeLight)) :=
  match api_devices with
  | [] => mret (Some entities)
  | device_cfg :: rest =>
      step ← try_except
                (entities' ← setup_device entry_data device_cfg entities;
                 mret (Some entities'))
                (λ e,
                   emit (LogException "async_setup_entry: Setup device failed" e);;
                   mret None);
      match step with
      | Some entities' => setup_devices entry_data rest entities'
      | None => mret None
      end
  end.

(** [entry_data] is what [hass.data[DOMAIN][entry.entry_id]] finds, [None]
    when either key is missing. *)
Definition async_setup_entry (entry_data : option EntryData)
    : M unit Event SetupReturn :=
  log DEBUG "Setting up platform entry";;
  found ← try_except
             (log DEBUG "async_setup_entry: Getting cloud devices from data store";;
              entry_data ← subscript entry_data;
              api_devices ← subscript (CONF_DEVICES entry_data);
              mret (Some (entry_data, api_devices)))
             (λ e,
                emit (LogException
                        "async_setup_entry: Getting cloud devices from data store failed" e);;
                mret None);
  match found with
  | None => mret ReturnFalse
  | Some (entry_data, api_devices) =>
      done ← setup_devices entry_data api_devices [];
      match done with
      | None => mret ReturnFalse
      | Some entities =>
          log INFO "async_setup_entry: setup entities";;
          if bool_decide (entities = []) then mret ReturnNone
          else
            emit (AddEntities entities);;
            mret ReturnNone
      end
  end.

End Platform.

Arguments EntryData : clear implicits.

(** The entity lists handed to [async_add_entities], in order. *)
Definition added (t : list Event) : list (list GoveeLifeLight) :=
  omap (λ ev, match ev with AddEntities entities => Some entities | _ => None end) t.

End Setup.

(* ------------------------------------------------------------------ *)

(** Further vocabulary, for the statements of Part III. *)
Module ExtraSpec.
Import Py Light LightSpec.

(** The colour mode a capability stands for, if any. *)
Definition mode_of (cap : Capability) : option ColorMode :=
  if bool_decide (cap_type cap = "devices.capabilities.on_off") then Some ONOFF
  else if bool_decide (cap_type cap = "devices.capabilities.range") then
    if bool_decide (cap_instance cap = "brightness") then Some BRIGHTNESS else None
  else if bool_decide (cap_type cap = "devices.capabilities.color_setting") then
    if bool_decide (cap_instance cap = "colorRgb") then Some RGB
    else if bool_decide (cap_instance cap = "colorTemperatureK") then Some COLOR_TEMP
    else None
  else None.

Definition modes_of (caps : list Capability) : gset ColorMode :=
  list_to_set (omap mode_of caps).

(** Some capability is a dynamic scene. *)
Definition has_scenes (caps : list Capability) : bool :=
  existsb (λ cap, bool_decide (cap_type cap = "devices.capabilities.dynamic_scene")) caps.

(** A remote call that raised. *)
Definition is_raised (ev : Event) : bool :=
  match ev with
  | ControlDevice _ (Raised _) => true
  | _ => false
  end.

(** No remote call of the trace raised. *)
Definition clean (t : list Event) : Prop := Forall (λ ev, is_raised ev = false) t.

(** A run stops at a remote call that raises: when the run returns, no
    remote call of its trace raised; when it raises, either none did (the
    exception came from elsewhere) or the trace ends with the call that
    raised this exception, and none before it did. *)
Definition stops_at_raise {World A : Type} (m : M World Event A) : Prop :=
  ∀ w,
    match outcome (m w) with
    | Ok _ => clean (trace (m w))
    | Raise e =>
        clean (trace (m w)) ∨
        ∃ t0 c, clean t0 ∧ trace (m w) = t0 ++ [ControlDevice c (Raised e)]
    end.

(** The trace of an entry point whose handler logs under [msg]: no remote
    call raised, or the trace ends with the one that did and the record of
    its exception. *)
Definition ends_at_raise (msg : string) (t : list Event) : Prop :=
  clean t ∨
  ∃ t0 c e,
    clean t0 ∧ t = t0 ++ [ControlDevice c (Raised e); LogException msg e].

(** The error records of a trace. *)
Definition errors (t : list Event) : list (string * exn) :=
  omap (λ ev, match ev with LogException msg e => Some (msg, e) | _ => None end) t.


Definition effect_capability (scene_data : StateCapability) : StateCapability :=
  {| sc_type := "devices.capabilities.dynamic_scene";
     sc_instance := sc_instance scene_data;
     sc_value := sc_value scene_data |}.





End ExtraSpec.

(* ------------------------------------------------------------------ *)

(** What the platform set-up is meant to do, written as a function of the
    device list. *)
Module SetupSpec.
Import Py Light Setup.

(** The error records of a set-up trace. *)
Definition setup_errors (t : list Event) : list (string * exn) :=
  omap (λ ev, match ev with LogException msg e => Some (msg, e) | _ => None end) t.

Definition is_light (device_cfg : DeviceCfg) : bool :=
  bool_decide (default STATE_UNKNOWN (cfg_type device_cfg) ∈ platform_device_types).

Section Platform.
Context {Coordinator : Type}.
Variable GoveeLifeLight_new : Coordinator → DeviceCfg → Result GoveeLifeLight.

(** The entity of one light device: its coordinator is looked up under the
    device id and handed to the constructor. *)
Definition build (entry_data : EntryData Coordinator) (device_cfg : DeviceCfg)
    : Result GoveeLifeLight :=
  match CONF_COORDINATORS entry_data with
  | None => Raise KeyError
  | Some coordinators =>
      if hashable (cfg_device device_cfg) then
        match coordinators !! cfg_device device_cfg with
        | Some coordinator => GoveeLifeLight_new coordinator device_cfg
        | None => Raise KeyError
        end
      else Raise TypeError
  end.

(** The entities of the light devices of a list, in order, or the exception
    of the first one that cannot be built. *)
Fixpoint build_all (entry_data : EntryData Coordinator) (api_devices : list DeviceCfg)
    : Result (list GoveeLifeLight) :=
  match api_devices with
  | [] => Ok []
  | device_cfg :: rest =>
      if is_light device_cfg then
        match build entry_data device_cfg with
        | Ok entity =>
            match build_all entry_data rest with
            | Ok entities => Ok (entity :: entities)
            | Raise e => Raise e
            end
        | Raise e => Raise e
        end
      else build_all entry_data rest
  end.

Definition data_store_failed : SetupReturn * list (list GoveeLifeLight) * list (string * exn) :=
  (ReturnFalse, [],
   [("async_setup_entry: Getting cloud devices from data store failed", KeyError)]).

(** The return value, the entity lists registered and the errors logged. *)
Definition setup_spec (entry_data : option (EntryData Coordinator))
    : SetupReturn * list (list GoveeLifeLight) * list (string * exn) :=
  match entry_data with
  | None => data_store_failed
  | Some entry_data =>
      match CONF_DEVICES entry_data with
      | None => data_store_failed
      | Some api_devices =>
          match build_all entry_data api_devices with
          | Ok [] => (ReturnNone, [], [])
          | Ok entities => (ReturnNone, [entities], [])
          | Raise e =>
              (ReturnFalse, [], [("async_setup_entry: Setup device failed", e)])
          end
      end
  end.

End Platform.

End SetupSpec.

(* ------------------------------------------------------------------ *)

(** Reading [hass.data] the way the services address it. *)
Module ServicesSpec.
Import Py Services.

(** [hass.data[domain].get(key)], nothing when the domain is missing. *)
Definition item_of (domain : string) (key : Value) (hass : Hass) : option DomainItem :=
  match data hass !! domain with
  | Some domain_data => (domain_data : gmap Value DomainItem) !! key
  | None => None
  end.

(** A field of the data of a config entry. *)
Definition field_of (domain : string) (entry_id : Value) (field : string) (hass : Hass)
    : option Value :=
  match item_of domain entry_id hass with
  | Some (EntryData d) => d !! field
  | _ => None
  end.

(** The key holds the data of a config entry. *)
Definition is_entry (domain : string) (entry_id : Value) (hass : Hass) : bool :=
  match item_of domain entry_id hass with
  | Some (EntryData _) => true
  | _ => false
  end.

(** A service call that carries both parameters of the poll-interval
    service. *)
Definition sets_interval (call : ServiceCall) (entry_id scan_interval : Value) : Prop :=
  call_data call !! CONF_SCAN_INTERVAL = Some scan_interval ∧
  call_data call !! CONF_ENTRY_ID = Some entry_id ∧
  scan_interval ≠ VNone ∧ entry_id ≠ VNone.

End ServicesSpec.

(* ------------------------------------------------------------------ *)

(** Further devices, requests and set-up data for Part III. *)
Module MoreFixtures.
Import Py Light LightSpec Fixtures.
Local Open Scope Z_scope.

(** The strip as the class attributes leave it: no power values mapped. *)
Definition unmapped_strip : GoveeLifeLight :=
  _init_platform_specific (new_light strip_caps (1, 100)).

(** A light that recognises the vendor's power values but has none to
    send. *)
Definition read_only_strip : GoveeLifeLight :=
  _init_platform_specific
    {| capabilities := strip_caps;
       _state_mapping := {[ VInt 1 := STATE_ON; VInt 0 := STATE_OFF ]};
       _state_mapping_set := ∅;
       _attr_supported_color_modes := ∅;
       _attr_effect_list := [];
       _scene_mapping := [];
       _attr_supported_features := 0;
       _brightness_scale := (1, 100) |}.

(** A light with the two DIY scenes of the same name. *)
Definition twin_light : GoveeLifeLight :=
  _init_platform_specific (new_light twin_caps (1, 100)).

(** The device plays the second of them. *)
Definition party_world : gmap (string * string) Value :=
  {[ ("devices.capabilities.dynamic_scene", "diyScene") := VInt 2 ]}.

(** A request for the DIY scene at half brightness. *)
Definition sunrise_at_half : TurnOnArgs :=
  {| ATTR_EFFECT := Some "diyScene_Sunrise";
     ATTR_BRIGHTNESS := Some 128;
     ATTR_COLOR_TEMP_KELVIN := None;
     ATTR_RGB_COLOR := None |}.

(** A request for a colour, with an effect name the strip does not have. *)
Definition red_with_unknown_effect : TurnOnArgs :=
  {| ATTR_EFFECT := Some "lightScene_Aurora";
     ATTR_BRIGHTNESS := None;
     ATTR_COLOR_TEMP_KELVIN := None;
     ATTR_RGB_COLOR := Some (255, 0, 0) |}.

(** Poll-interval calls for the entry of [home]. *)
Definition every_30_seconds : Services.ServiceCall :=
  poll_call {[ "scan_interval" := VInt 30; "entry_id" := VStr "entry1" ]}.

Definition every_5_minutes : Services.ServiceCall :=
  poll_call {[ "scan_interval" := VInt 300; "entry_id" := VStr "entry1" ]}.

(** ** Platform set-up *)

(** A constructor that builds the light of a device from its capabilities
    and fails on a device without any. *)
Definition light_of_capabilities (coordinator : string) (device_cfg : Setup.DeviceCfg)
    : Result GoveeLifeLight :=
  if bool_decide (Setup.cfg_capabilities device_cfg = []) then Raise (OtherError "ValueError")
  else Ok (_init_platform_specific (new_light (Setup.cfg_capabilities device_cfg) (1, 100))).

Definition device (type : string) (id : string) (caps : list Capability) : Setup.DeviceCfg :=
  {| Setup.cfg_type := Some type;
     Setup.cfg_device := VStr id;
     Setup.cfg_capabilities := caps |}.

(** An entry with a light, a heater and a second light, and coordinators
    for the devices listed in [ids]. *)
Definition entry_with (ids : list string) (third : Setup.DeviceCfg) : Setup.EntryData string :=
  {| Setup.CONF_DEVICES :=
       Some [ device "devices.types.light" "AA:01" twin_caps;
              device "devices.types.heater" "AA:02" [];
              third ];
     Setup.CONF_COORDINATORS :=
       Some (list_to_map ((λ id, (VStr id, id)) <$> ids)) |}.

End MoreFixtures.
(* ================================================================== *)
(** * Part II: properties *)
(* ================================================================== *)

Module ColorFacts.
Import Color.
Local Open Scope Z_scope.

Lemma land_255 (x : Z) : Z.land x 255 = x mod 256.
Proof. change 255 with (Z.ones 8). by rewrite Z.land_ones. Qed.

Lemma getRGBfromI_div_mod (N : Z) :
  _getRGBfromI N = ((N / 65536) mod 256, (N / 256) mod 256, N mod 256).
Proof.
  unfold _getRGBfromI. rewrite !land_255, !Z.shiftr_div_pow2 by lia. reflexivity.
Qed.

Lemma getIfromRGB_linear (r g b : Z) :
  _getIfromRGB (r, g, b) = r * 65536 + g * 256 + b.
Proof.
  unfold _getIfromRGB. rewrite !Z.shiftl_mul_pow2 by lia. reflexivity.
Qed.

(** Each component of a decomposed colour is a byte, whatever the integer. *)
Lemma getRGBfromI_bytes (N : Z) :
  let '(r, g, b) := _getRGBfromI N in
  0 ≤ r ≤ 255 ∧ 0 ≤ g ≤ 255 ∧ 0 ≤ b ≤ 255.
Proof.
  rewrite getRGBfromI_div_mod.
  pose proof (Z.mod_pos_bound (N / 65536) 256).
  pose proof (Z.mod_pos_bound (N / 256) 256).
  pose proof (Z.mod_pos_bound N 256). lia.
Qed.

(** C2: a 24-bit integer survives decomposition into (red, green, blue)
    followed by recomposition, and a triple of bytes survives composition
    followed by decomposition; red is the high byte. *)
Theorem rgb_int_roundtrip :
  (∀ N : Z, 0 ≤ N < 2 ^ 24 → _getIfromRGB (_getRGBfromI N) = N) ∧
  (∀ r g b : Z, 0 ≤ r ≤ 255 → 0 ≤ g ≤ 255 → 0 ≤ b ≤ 255 →
     _getRGBfromI (_getIfromRGB (r, g, b)) = (r, g, b)).
Proof.
  split.
  - intros N HN. rewrite getRGBfromI_div_mod, getIfromRGB_linear.
    Z.to_euclidean_division_equations. lia.
  - intros r g b Hr Hg Hb. rewrite getIfromRGB_linear, getRGBfromI_div_mod.
    repeat f_equal; Z.to_euclidean_division_equations; lia.
Qed.

Lemma rgb_int_roundtrip_witness :
  _getIfromRGB (_getRGBfromI 16744448) = 16744448 ∧
  _getRGBfromI (_getIfromRGB (255, 128, 0)) = (255, 128, 0).
Proof.
  destruct rgb_int_roundtrip as [Hint Htriple].
  split; [apply Hint; lia | apply Htriple; lia].
Defined.

(** Red sits in bits 16..23. *)
Example red_is_high_byte : _getRGBfromI 16711680 = (255, 0, 0).
Proof. reflexivity. Qed.

End ColorFacts.

(* ------------------------------------------------------------------ *)

Module BrightnessFacts.
Import Brightness.
Local Open Scope Z_scope.

Lemma host_states : states_in_range (1, 255) = 255.
Proof. reflexivity. Qed.

Lemma device_brightness_ceil (lo hi b : Z) :
  device_brightness (lo, hi) b = lo - 1 + - ((- (b * (hi - lo + 1))) / 255).
Proof.
  unfold device_brightness, brightness_to_value, scale_to_ranged_value.
  rewrite host_states. unfold states_in_range.
  cbn [fst snd].
  unfold Qceiling, Qfloor, Qopp, Qplus, Qdiv, Qmult, Qinv, inject_Z. cbn.
  change (1 * 255 * 1)%positive with 255%positive.
  change (1 * 255)%positive with 255%positive.
  replace (- ((b - (1 - 1)) * (hi - lo + 1) * 1 * 1 + (lo - 1) * 255))
    with (- (b * (hi - lo + 1)) + (- (lo - 1)) * 255) by ring.
  rewrite Z.div_add by lia. lia.
Qed.

Lemma value_to_brightness_floor (lo hi v : Z) :
  value_to_brightness (lo, hi) v =
  Z.min 255 (Z.max 1 (((v - lo + 1) * 255) / (hi - lo + 1))).
Proof.
  unfold value_to_brightness, scale_ranged_value_to_int_range.
  rewrite host_states. unfold states_in_range. cbn [fst snd].
  replace (v - (lo - 1)) with (v - lo + 1) by lia.
  by rewrite Z.add_0_r.
Qed.

(** The documented sample points of the host helpers on the percentage
    scale. *)
Example value_to_brightness_samples :
  value_to_brightness (1, 100) 100 = 255 ∧
  value_to_brightness (1, 100) 50 = 127 ∧
  value_to_brightness (1, 100) 4 = 10.
Proof. by vm_compute. Qed.

Example device_brightness_samples :
  device_brightness (1, 100) 255 = 100 ∧
  device_brightness (1, 100) 127 = 50 ∧
  device_brightness (1, 100) 10 = 4.
Proof. by vm_compute. Qed.

(** The arithmetic of the round trip: [u] is the position of the device
    value on its scale of [n] states, counted from 1. *)
Lemma rescale_arith (n u : Z) :
  1 ≤ u ≤ n →
  255 * Z.abs (- ((- (Z.min 255 (Z.max 1 ((u * 255) / n)) * n)) / 255) - u) < n.
Proof.
  intros Hu.
  pose proof (Z.div_mod (u * 255) n ltac:(lia)) as Hq.
  pose proof (Z.mod_pos_bound (u * 255) n ltac:(lia)) as Hr.
  set (q := (u * 255) / n) in *. set (r := (u * 255) mod n) in *.
  clearbody q r.
  assert (Hq0 : 0 ≤ q ≤ 255) by nia.
  assert (Hb : Z.min 255 (Z.max 1 q) = Z.max 1 q) by lia.
  rewrite Hb. clear Hb.
  destruct (Z.max_spec 1 q) as [[Hlt Hmax]|[Hge Hmax]]; rewrite Hmax; clear Hmax.
  - Z.to_euclidean_division_equations. nia.
  - Z.to_euclidean_division_equations. nia.
Qed.

Lemma roundtrip_offset (lo hi v : Z) :
  device_brightness (lo, hi) (value_to_brightness (lo, hi) v) - v =
  - ((- (Z.min 255 (Z.max 1 (((v - lo + 1) * 255) / (hi - lo + 1))) * (hi - lo + 1))) / 255)
  - (v - lo + 1).
Proof. rewrite device_brightness_ceil, value_to_brightness_floor. lia. Qed.

Lemma brightness_roundtrip_exact (lo hi v : Z) :
  lo ≤ v ≤ hi → states_in_range (lo, hi) ≤ 255 →
  device_brightness (lo, hi) (value_to_brightness (lo, hi) v) = v.
Proof.
  unfold states_in_range. cbn [fst snd]. intros Hv Hs.
  pose proof (rescale_arith (hi - lo + 1) (v - lo + 1) ltac:(lia)) as Hbound.
  rewrite <- roundtrip_offset in Hbound. lia.
Qed.



(** On the device scales in use (percentages from 0 or 1, the 8-bit scales)
    and a coarser one, for every host brightness, rounding the quotient to
    binary64 before taking the ceiling gives the value of the exact model. *)
Lemma device_brightness_float_agrees :
  forallb
    (λ scale,
       forallb
         (λ b, bool_decide (device_brightness_float scale b = Some (device_brightness scale b)))
         (seqZ 1 255))
    [(1, 100); (0, 100); (1, 254); (0, 254); (1, 255); (0, 255); (1, 1000); (0, 1000)]
  = true.
Proof. vm_compute. reflexivity. Qed.

(** On a scale with more states than the host has, neighbouring device
    values share a host value and the round trip moves them. *)
Example brightness_roundtrip_coarse :
  device_brightness (1, 1000) (value_to_brightness (1, 1000) 500) = 499.
Proof. by vm_compute. Qed.
End BrightnessFacts.

(* ------------------------------------------------------------------ *)

Module PyFacts.
Import Py.

Section DictFacts.
Context {V : Type}.
Implicit Types (k : string) (v : V) (d : list (string * V)).

Lemma dict_get_set_eq k v d : dict_get k (dict_set k v d) = Some v.
Proof.
  induction d as [|[k' v'] d IH]; simpl.
  - by rewrite decide_True.
  - destruct (decide (k = k')) as [->|Hne]; simpl.
    + by rewrite decide_True.
    + by rewrite decide_False.
Qed.

Lemma dict_get_set_ne k k' v d :
  k ≠ k' → dict_get k' (dict_set k v d) = dict_get k' d.
Proof.
  intros Hne. induction d as [|[k0 v0] d IH]; simpl.
  - by rewrite decide_False.
  - destruct (decide (k = k0)) as [->|Hne0]; simpl.
    + by rewrite !decide_False.
    + destruct (decide (k' = k0)); [done | apply IH].
Qed.

Lemma dict_get_app k d1 d2 :
  dict_get k (d1 ++ d2) =
  match dict_get k d1 with Some v => Some v | None => dict_get k d2 end.
Proof.
  induction d1 as [|[k' v'] d1 IH]; simpl; [done|].
  by destruct (decide (k = k')).
Qed.

Lemma dict_get_None k d : k ∉ d.*1 → dict_get k d = None.
Proof.
  induction d as [|[k' v'] d IH]; simpl; [done|].
  intros Hnot. apply not_elem_of_cons in Hnot as [Hne Hnot].
  rewrite decide_False by done. by apply IH.
Qed.

(** With distinct keys, every item of the association list is the one its
    key finds. *)
Lemma dict_get_NoDup k v d : NoDup d.*1 → (k, v) ∈ d → dict_get k d = Some v.
Proof.
  induction d as [|[k' v'] d IH]; simpl; intros Hnd Hin.
  - by apply elem_of_nil in Hin.
  - apply NoDup_cons in Hnd as [Hnotin Hnd].
    apply elem_of_cons in Hin as [Heq|Hin].
    + injection Heq as -> ->. by rewrite decide_True.
    + destruct (decide (k = k')) as [->|Hne].
      * exfalso. apply Hnotin. apply list_elem_of_fmap. by exists (k', v).
      * by apply IH.
Qed.

(** After the assignments a key holds what its last assignment gave it. *)
Lemma dict_get_update k entries d :
  dict_get k (dict_update entries d) =
  match dict_get k (reverse entries) with
  | Some v => Some v
  | None => dict_get k d
  end.
Proof.
  revert d. induction entries as [|[k' v'] entries IH]; intros d; [done|].
  change (dict_update ((k', v') :: entries) d)
    with (dict_update entries (dict_set k' v' d)).
  rewrite reverse_cons, dict_get_app, IH. simpl.
  destruct (dict_get k (reverse entries)) as [v|]; [done|].
  destruct (decide (k = k')) as [->|Hne].
  - apply dict_get_set_eq.
  - by apply dict_get_set_ne.
Qed.

End DictFacts.

End PyFacts.

(* ------------------------------------------------------------------ *)

Module InitFacts.
Import Py PyFacts Light LightSpec.

Lemma dict_update_app {V} (e1 e2 : list (string * V)) d :
  dict_update (e1 ++ e2) d = dict_update e2 (dict_update e1 d).
Proof. apply fold_left_app. Qed.

Lemma add_scene_options_scenes scene_instance options self :
  _attr_effect_list (add_scene_options scene_instance options self) =
    _attr_effect_list self ++ (flat_map (option_entry scene_instance) options).*1 ∧
  _scene_mapping (add_scene_options scene_instance options self) =
    dict_update (flat_map (option_entry scene_instance) options) (_scene_mapping self).
Proof.
  revert self. induction options as [|option options IH]; intros self; simpl.
  - by rewrite app_nil_r.
  - rewrite fmap_app, dict_update_app.
    set (rest := flat_map (option_entry scene_instance) options) in *.
    unfold option_entry.
    destruct (opt_name option) as [name|], (opt_value option) as [value|]; simpl;
      match goal with
      | |- context [add_scene_options _ _ ?s] => destruct (IH s) as [-> ->]
      end; simpl; by rewrite <- ?app_assoc.
Qed.

Lemma init_capability_scenes self cap :
  _attr_effect_list (init_capability self cap) =
    _attr_effect_list self ++ (capability_entries cap).*1 ∧
  _scene_mapping (init_capability self cap) =
    dict_update (capability_entries cap) (_scene_mapping self).
Proof.
  unfold init_capability, capability_entries.
  destruct cap as [ty inst opts]; simpl.
  repeat (case_bool_decide; subst; simpl; try by rewrite ?app_nil_r).
  match goal with
  | |- context [add_scene_options ?i ?o ?s] => exact (add_scene_options_scenes i o s)
  end.
Qed.

Lemma fold_init_capability_scenes caps self :
  _attr_effect_list (fold_left init_capability caps self) =
    _attr_effect_list self ++ scene_names caps ∧
  _scene_mapping (fold_left init_capability caps self) =
    dict_update (scene_entries caps) (_scene_mapping self).
Proof.
  unfold scene_names, scene_entries.
  revert self. induction caps as [|cap caps IH]; intros self; simpl.
  - by rewrite app_nil_r.
  - destruct (IH (init_capability self cap)) as [IHl IHm].
    destruct (init_capability_scenes self cap) as [Hl Hm].
    rewrite IHl, IHm, Hl, Hm, fmap_app, dict_update_app.
    by rewrite app_assoc.
Qed.

(** What the initializer leaves in the two scene attributes. *)
Lemma init_scenes self :
  _attr_effect_list (_init_platform_specific self) = scene_names (capabilities self) ∧
  _scene_mapping (_init_platform_specific self) =
    dict_update (scene_entries (capabilities self)) [].
Proof.
  unfold _init_platform_specific.
  by destruct (fold_init_capability_scenes (capabilities self) (set_scenes [] [] 0 self)).
Qed.

Lemma elem_of_scene_entries caps n d :
  (n, d) ∈ scene_entries caps ↔
  ∃ cap option name value,
    cap ∈ caps ∧ cap_type cap = "devices.capabilities.dynamic_scene" ∧
    option ∈ cap_options cap ∧
    opt_name option = Some name ∧ opt_value option = Some value ∧
    n = scene_name_of (cap_instance cap) name ∧
    d = {| sc_type := "devices.capabilities.dynamic_scene";
           sc_instance := cap_instance cap;
           sc_value := value |}.
Proof.
  unfold scene_entries, capability_entries, option_entry.
  rewrite list_elem_of_In, in_flat_map. split.
  - intros (cap & Hcap & Hin). case_bool_decide; [|done].
    apply in_flat_map in Hin as (option & Hopt & Hin).
    destruct (opt_name option) as [name|] eqn:Hn, (opt_value option) as [value|] eqn:Hv;
      try done.
    destruct Hin as [Heq|[]]. injection Heq as <- <-.
    exists cap, option, name, value. by rewrite <- !list_elem_of_In in *.
  - intros (cap & option & name & value & Hcap & Hty & Hopt & Hn & Hv & -> & ->).
    exists cap. rewrite <- list_elem_of_In. split; [done|].
    rewrite bool_decide_eq_true_2 by done. apply in_flat_map.
    exists option. rewrite <- list_elem_of_In. split; [done|].
    rewrite Hn, Hv. by left.
Qed.

(** Across instances that do not contain the separator, such as the three
    scene categories, synthesized names collide only when instance and
    option name both agree. *)
Lemma scene_name_of_inj i1 i2 n1 n2 :
  underscore_free i1 = true → underscore_free i2 = true →
  scene_name_of i1 n1 = scene_name_of i2 n2 → i1 = i2 ∧ n1 = n2.
Proof.
  unfold scene_name_of. revert i2.
  induction i1 as [|a i1 IH]; intros [|b i2]; simpl; intros H1 H2 Heq;
    cbv [String.append] in Heq; fold String.append in Heq.
  - by injection Heq as ->.
  - by injection Heq as <- _.
  - by injection Heq as -> _.
  - injection Heq as -> Heq.
    apply andb_prop in H1 as [_ H1]. apply andb_prop in H2 as [_ H2].
    by destruct (IH i2 H1 H2 Heq) as [-> ->].
Qed.

Example scene_categories_underscore_free :
  forallb underscore_free scene_types = true.
Proof. reflexivity. Qed.

(** Whatever the names, a name of the mapping holds the scene of the last
    option that produced it. *)
Lemma scene_mapping_last_wins self n :
  dict_get n (_scene_mapping (_init_platform_specific self)) =
  dict_get n (reverse (scene_entries (capabilities self))).
Proof.
  destruct (init_scenes self) as [_ ->]. rewrite dict_get_update.
  by destruct (dict_get n (reverse (scene_entries (capabilities self)))).
Qed.

(** C3, as the code has it: when the synthesized names
    [instance_name] of the options that carry a name and a value are
    pairwise distinct, the effect list has no duplicates, and every such
    option finds its name in the list and, under that name, its own
    (instance, value) in the scene mapping. *)
Theorem distinct_scene_names_resolve (self : GoveeLifeLight) :
  NoDup (scene_names (capabilities self)) →
  NoDup (_attr_effect_list (_init_platform_specific self)) ∧
  ∀ cap option name value,
    cap ∈ capabilities self →
    cap_type cap = "devices.capabilities.dynamic_scene" →
    option ∈ cap_options cap →
    opt_name option = Some name →
    opt_value option = Some value →
    scene_name_of (cap_instance cap) name ∈ _attr_effect_list (_init_platform_specific self) ∧
    dict_get (scene_name_of (cap_instance cap) name)
      (_scene_mapping (_init_platform_specific self)) =
    Some {| sc_type := "devices.capabilities.dynamic_scene";
            sc_instance := cap_instance cap;
            sc_value := value |}.
Proof.
  intros Hnd. destruct (init_scenes self) as [Hl Hm]. rewrite Hl. split; [done|].
  intros cap option name value Hcap Hty Hopt Hname Hvalue.
  assert (Hin : (scene_name_of (cap_instance cap) name,
                 {| sc_type := "devices.capabilities.dynamic_scene";
                    sc_instance := cap_instance cap;
                    sc_value := value |}) ∈ scene_entries (capabilities self)).
  { apply elem_of_scene_entries. by exists cap, option, name, value. }
  split.
  - unfold scene_names. apply list_elem_of_fmap. by eexists (_, _).
  - rewrite scene_mapping_last_wins. apply dict_get_NoDup.
    + by rewrite fmap_reverse, reverse_Permutation.
    + by apply elem_of_reverse.
Qed.

Lemma distinct_scene_names_resolve_witness :
  NoDup (_attr_effect_list (_init_platform_specific (new_light Fixtures.strip_caps (1, 100)%Z))) ∧
  dict_get "diyScene_Sunrise"
    (_scene_mapping (_init_platform_specific (new_light Fixtures.strip_caps (1, 100)%Z))) =
  Some {| sc_type := "devices.capabilities.dynamic_scene";
          sc_instance := "diyScene";
          sc_value := VInt 11 |}.
Proof.
  destruct (distinct_scene_names_resolve (new_light Fixtures.strip_caps (1, 100)%Z))
    as [Hnd Hres].
  { apply (bool_decide_unpack _). by vm_compute. }
  split; [exact Hnd|].
  apply (Hres (Fixtures.scene_capability "diyScene" [Fixtures.scene_option "Sunrise" (VInt 11)])
              (Fixtures.scene_option "Sunrise" (VInt 11)) "Sunrise" (VInt 11));
    [ | reflexivity | | reflexivity | reflexivity ].
  - do 3 apply list_elem_of_further. apply list_elem_of_here.
  - apply list_elem_of_here.
Defined.

(** C3 as the spec words it fails on two options of one capability that
    share a name: the name is listed twice and resolves to the second
    option's value, not to the first's. *)
Lemma twin_scene_names_collide :
  _attr_effect_list (_init_platform_specific (new_light Fixtures.twin_caps (1, 100)%Z)) =
    ["diyScene_Party"; "diyScene_Party"] ∧
  dict_get "diyScene_Party"
    (_scene_mapping (_init_platform_specific (new_light Fixtures.twin_caps (1, 100)%Z))) =
    Some {| sc_type := "devices.capabilities.dynamic_scene";
            sc_instance := "diyScene";
            sc_value := VInt 2 |} ∧
  ¬ NoDup (_attr_effect_list (_init_platform_specific (new_light Fixtures.twin_caps (1, 100)%Z))).
Proof.
  split; [reflexivity|]. split; [reflexivity|].
  intros Hnd. apply NoDup_cons in Hnd as [Hnotin _]. apply Hnotin. by left.
Qed.

(** The strip of the fixtures after initialization. *)
Example strip_effect_list :
  _attr_effect_list (_init_platform_specific (new_light Fixtures.strip_caps (1, 100)%Z)) =
  ["lightScene_Sunrise"; "lightScene_Sunset"; "diyScene_Sunrise"].
Proof. reflexivity. Qed.

Example strip_color_modes :
  _attr_supported_color_modes
    (_init_platform_specific (new_light Fixtures.strip_caps (1, 100)%Z)) =
  {[ ONOFF; BRIGHTNESS ]} ∧
  supported_features (_init_platform_specific (new_light Fixtures.strip_caps (1, 100)%Z)) = 4%Z.
Proof. split; [by vm_compute | reflexivity]. Qed.

End InitFacts.

(* ------------------------------------------------------------------ *)

Module MonadFacts.
Import Py.

Section Laws.
Context {St Ev : Type}.
Implicit Types (w : St).

Lemma trace_bind {A B} (m : M St Ev A) (k : A → M St Ev B) w :
  trace ((m ≫= k) w) =
  trace (m w) ++
  match outcome (m w) with
  | Ok a => trace (k a (world_after (m w)))
  | Raise _ => []
  end.
Proof.
  unfold mbind, M_bind, bind. destruct (outcome (m w)); simpl; by rewrite ?app_nil_r.
Qed.

Lemma outcome_bind {A B} (m : M St Ev A) (k : A → M St Ev B) w :
  outcome ((m ≫= k) w) =
  match outcome (m w) with
  | Ok a => outcome (k a (world_after (m w)))
  | Raise e => Raise e
  end.
Proof. unfold mbind, M_bind, bind. by destruct (outcome (m w)). Qed.

Lemma world_after_bind {A B} (m : M St Ev A) (k : A → M St Ev B) w :
  world_after ((m ≫= k) w) =
  match outcome (m w) with
  | Ok a => world_after (k a (world_after (m w)))
  | Raise e => world_after (m w)
  end.
Proof. unfold mbind, M_bind, bind. by destruct (outcome (m w)). Qed.

Lemma trace_try_except {A} (body : M St Ev A) (handler : exn → M St Ev A) w :
  trace (try_except body handler w) =
  trace (body w) ++
  match outcome (body w) with
  | Ok _ => []
  | Raise e => trace (handler e (world_after (body w)))
  end.
Proof.
  unfold try_except. destruct (outcome (body w)); simpl; by rewrite ?app_nil_r.
Qed.

Lemma outcome_try_except {A} (body : M St Ev A) (handler : exn → M St Ev A) w :
  outcome (try_except body handler w) =
  match outcome (body w) with
  | Ok a => Ok a
  | Raise e => outcome (handler e (world_after (body w)))
  end.
Proof. unfold try_except. by destruct (outcome (body w)) eqn:E. Qed.

Lemma world_after_try_except {A} (body : M St Ev A) (handler : exn → M St Ev A) w :
  world_after (try_except body handler w) =
  match outcome (body w) with
  | Ok a => world_after (body w)
  | Raise e => world_after (handler e (world_after (body w)))
  end.
Proof. unfold try_except. by destruct (outcome (body w)). Qed.

(** A handler that only logs turns every exception into a plain return:
    the call returns [None], the log gains one record at its end, and the
    state stays as the failing body left it. *)
Lemma try_except_logged (body : M St Ev unit) (record : exn → Ev) w :
  outcome (try_except body (λ e, emit (record e)) w) = Ok tt ∧
  (∀ e, outcome (body w) = Raise e →
     trace (try_except body (λ e, emit (record e)) w) = trace (body w) ++ [record e] ∧
     world_after (try_except body (λ e, emit (record e)) w) = world_after (body w)) ∧
  (outcome (body w) = Ok tt →
     trace (try_except body (λ e, emit (record e)) w) = trace (body w) ∧
     world_after (try_except body (λ e, emit (record e)) w) = world_after (body w)).
Proof.
  rewrite outcome_try_except, trace_try_except, world_after_try_except.
  destruct (outcome (body w)) as [[]|e]; simpl.
  - split; [done|]. split; [done|]. by rewrite app_nil_r.
  - split; [done|]. split; [|done]. by intros e' [= <-].
Qed.

End Laws.

End MonadFacts.

(* ------------------------------------------------------------------ *)

Module TraceFacts.
Import Py Light LightSpec.

Lemma io_app t1 t2 : io (t1 ++ t2) = io t1 ++ io t2.
Proof. apply filter_app. Qed.

Lemma io_cons ev t : io (ev :: t) = if is_io ev then ev :: io t else io t.
Proof. unfold io. rewrite filter_cons. by destruct (is_io ev). Qed.

Lemma calls_app t1 t2 : calls (t1 ++ t2) = calls t1 ++ calls t2.
Proof. apply omap_app. Qed.

(** Log records carry no remote call, so the calls of a trace are those of
    its calls and notifications. *)
Lemma calls_io t : calls (io t) = calls t.
Proof.
  induction t as [|ev t IH]; [done|]. rewrite io_cons.
  destruct ev; simpl; by rewrite ?IH.
Qed.

Lemma notified_iff_success_app t1 t2 :
  notified_iff_success t1 → notified_iff_success t2 → notified_iff_success (t1 ++ t2).
Proof.
  intros H1 H2. induction H1; simpl; [done | by constructor | by constructor].
Qed.

End TraceFacts.

(* ------------------------------------------------------------------ *)

Module PropertyFacts.
Import Py PyFacts MonadFacts Light LightSpec TraceFacts.

Ltac case_hashable :=
  match goal with
  | |- context [hashable ?v] => destruct (hashable v) eqn:?
  end.

Section Entity.
Context {World : Type}.
Variable cached : World → string → string → Value.
Implicit Types (self : GoveeLifeLight) (w : World).

(** Reading a property never changes the world. *)
Lemma state_world self w : world_after (state cached self w) = w.
Proof.
  unfold state, get_cached, hash_key, log.
  simpl. case_hashable; [|done]. simpl.
  by case_bool_decide.
Qed.

(** What [state] returns on a hashable cached value: the mapped state, or
    "unknown" when the value is no key of the mapping. *)
Lemma state_outcome self w :
  hashable (cached w "devices.capabilities.on_off" "powerSwitch") = true →
  outcome (state cached self w) =
  Ok (default STATE_UNKNOWN
        (_state_mapping self !! cached w "devices.capabilities.on_off" "powerSwitch")).
Proof.
  intros Hh. unfold state, get_cached, hash_key, log. simpl. rewrite Hh. simpl.
  by case_bool_decide.
Qed.

(** [state] has no remote call and no notification in its trace. *)
Lemma state_io self w : io (trace (state cached self w)) = [].
Proof.
  unfold state, get_cached, hash_key, log.
  simpl. case_hashable; [|done]. simpl.
  by case_bool_decide.
Qed.


(** The inner loop returns the head of the matching names. *)
Lemma find_scene_head mapping scene_type value :
  value ≠ VNone →
  find_scene mapping scene_type value = head (matching_names mapping scene_type value).
Proof.
  intros Hv. unfold matching_names. rewrite bool_decide_eq_false_2 by done.
  induction mapping as [|[n d] mapping IH]; simpl; [done|].
  rewrite filter_cons. simpl. destruct (decide _) as [[Hi Hval]|Hno].
  - by rewrite !bool_decide_eq_true_2.
  - rewrite IH. destruct (bool_decide (sc_instance d = scene_type)) eqn:Ei;
      destruct (bool_decide (sc_value d = value)) eqn:Ev; simpl; try done.
    apply bool_decide_eq_true in Ei, Ev. by destruct Hno.
Qed.

Lemma head_app {A} (l1 l2 : list A) :
  head (l1 ++ l2) = match head l1 with Some x => Some x | None => head l2 end.
Proof. by destruct l1. Qed.

Lemma effect_scan_spec self types w :
  outcome (effect_scan cached self types w) =
    Ok (head (flat_map
                (λ scene_type,
                   matching_names (_scene_mapping self) scene_type
                     (cached w "devices.capabilities.dynamic_scene" scene_type))
                types)) ∧
  world_after (effect_scan cached self types w) = w ∧
  io (trace (effect_scan cached self types w)) = [].
Proof.
  induction types as [|scene_type types (IHo & IHw & IHt)]; [done|].
  cbn [effect_scan flat_map]. rewrite head_app.
  unfold get_cached, log. simpl.
  set (value := cached w "devices.capabilities.dynamic_scene" scene_type).
  case_bool_decide as Hv; simpl.
  - rewrite <- find_scene_head by done.
    destruct (find_scene (_scene_mapping self) scene_type value); simpl; [done|].
    by rewrite io_cons, IHo, IHw, IHt.
  - unfold matching_names at 1.
    rewrite bool_decide_eq_true_2 by (by destruct (decide (value = VNone))).
    simpl. by rewrite io_cons, IHo, IHw, IHt.
Qed.

Lemma elem_of_matching_names mapping scene_type value n :
  n ∈ matching_names mapping scene_type value ↔
  value ≠ VNone ∧
  ∃ d, (n, d) ∈ mapping ∧ sc_instance d = scene_type ∧ sc_value d = value.
Proof.
  unfold matching_names. case_bool_decide as Hv.
  - split; [by intros ?%elem_of_nil | by intros [? _]].
  - rewrite list_elem_of_fmap. split.
    + intros ([n' d] & -> & Hin). apply list_elem_of_filter in Hin as [[Hi Hval] Hin].
      split; [done|]. by exists d.
    + intros (_ & d & Hin & Hi & Hval). exists (n, d). split; [done|].
      by apply list_elem_of_filter.
Qed.

(** C5: [effect] returns none at once when the effect list is empty;
    otherwise it takes the scene types in the order lightScene, diyScene,
    snapshot and returns the first name of the scene mapping whose
    (instance, value) is the scene type and the value cached for it, or
    none when no scene type has a match.  It raises nothing, calls nothing
    and leaves the world as it was. *)
Theorem effect_first_match self w :
  outcome (effect cached self w) = Ok (effect_spec cached self w) ∧
  world_after (effect cached self w) = w ∧
  io (trace (effect cached self w)) = [] ∧
  (_attr_effect_list self = [] →
     outcome (effect cached self w) = Ok None ∧
     trace (effect cached self w) = [Log DEBUG "No effects available"]) ∧
  (∀ n, outcome (effect cached self w) = Ok (Some n) →
     ∃ scene_type d,
       scene_type ∈ scene_types ∧
       cached w "devices.capabilities.dynamic_scene" scene_type ≠ VNone ∧
       (n, d) ∈ _scene_mapping self ∧
       sc_instance d = scene_type ∧
       sc_value d = cached w "devices.capabilities.dynamic_scene" scene_type) ∧
  (_attr_effect_list self ≠ [] →
   outcome (effect cached self w) = Ok None →
   ∀ scene_type n d,
     scene_type ∈ scene_types →
     (n, d) ∈ _scene_mapping self →
     sc_instance d = scene_type →
     sc_value d = cached w "devices.capabilities.dynamic_scene" scene_type →
     cached w "devices.capabilities.dynamic_scene" scene_type = VNone).
Proof.
  assert (Hrefine : outcome (effect cached self w) = Ok (effect_spec cached self w) ∧
                    world_after (effect cached self w) = w ∧
                    io (trace (effect cached self w)) = []).
  { unfold effect, effect_spec. case_bool_decide; [done|]. apply effect_scan_spec. }
  destruct Hrefine as (Ho & Hw & Ht). rewrite Ho.
  split; [done|]. split; [done|]. split; [done|]. split; [|split].
  - intros Hempty. unfold effect_spec, effect.
    by rewrite !bool_decide_eq_true_2.
  - intros n [= Hn]. unfold effect_spec in Hn. case_bool_decide; [done|].
    apply head_Some_elem_of in Hn.
    apply list_elem_of_In, in_flat_map in Hn as (scene_type & Hty & Hin).
    apply list_elem_of_In in Hty.
    apply list_elem_of_In, elem_of_matching_names in Hin as (Hv & d & Hd & Hi & Hval).
    by exists scene_type, d.
  - intros Hne [= Hnone] scene_type n d Hty Hd Hi Hval.
    unfold effect_spec in Hnone. rewrite bool_decide_eq_false_2 in Hnone by done.
    apply head_None in Hnone.
    destruct (decide (cached w "devices.capabilities.dynamic_scene" scene_type = VNone))
      as [|Hv]; [done|].
    exfalso. assert (Hin : n ∈ @nil string); [|by apply elem_of_nil in Hin].
    rewrite <- Hnone. apply list_elem_of_In, in_flat_map.
    exists scene_type. split; [by apply list_elem_of_In|].
    apply list_elem_of_In, elem_of_matching_names. split; [done|]. by exists d.
Qed.

End Entity.

End PropertyFacts.

(* ------------------------------------------------------------------ *)

Module CommandFacts.
Import Py PyFacts MonadFacts Light LightSpec TraceFacts PropertyFacts.

Lemma kinds_app t1 t2 : kinds (t1 ++ t2) = kinds t1 ++ kinds t2.
Proof. unfold kinds. by rewrite calls_app, fmap_app. Qed.

Section Entity.
Context {World : Type}.
Variable cached : World → string → string → Value.
Variable control : World → StateCapability → World * Reply.
Implicit Types (self : GoveeLifeLight) (w : World) (kwargs : TurnOnArgs).

(** ** Composition *)

Lemma issues_bind {A B} ks1 ks2 (m : M World Event A) (k : A → M World Event B) :
  issues ks1 m → (∀ a, issues ks2 (k a)) → issues (ks1 ++ ks2) (m ≫= k).
Proof.
  intros Hm Hk w. destruct (Hm w) as (Hpre & Hall & Hnis).
  rewrite trace_bind, outcome_bind.
  destruct (outcome (m w)) as [a|e].
  - destruct (Hk a (world_after (m w))) as (Hpre' & Hall' & Hnis').
    rewrite kinds_app, io_app, (Hall a eq_refl). split; [|split].
    + by apply prefix_app.
    + intros b Hb. by rewrite (Hall' b Hb).
    + by apply notified_iff_success_app.
  - rewrite app_nil_r. split; [|split]; [|done|done].
    by apply prefix_app_r.
Qed.

(** A computation that calls nothing and notifies nothing. *)
Lemma issues_silent {A} (m : M World Event A) :
  (∀ w, io (trace (m w)) = []) → issues [] m.
Proof.
  intros Hio w. assert (Hk : kinds (trace (m w)) = []).
  { unfold kinds. by rewrite <- calls_io, Hio. }
  rewrite Hk, Hio. split; [done|]. split; [done|]. constructor.
Qed.

Lemma issues_ret {A} (a : A) : issues [] (mret a : M World Event A).
Proof. by apply issues_silent. Qed.

Lemma issues_log lvl msg : issues [] (log lvl msg : M World Event unit).
Proof. by apply issues_silent. Qed.

Lemma issues_subscript {A} (o : option A) : issues [] (subscript o : M World Event A).
Proof. apply issues_silent. by destruct o. Qed.

Lemma issues_seq {A} ks (m1 : M World Event unit) (m2 : M World Event A) :
  issues [] m1 → issues ks m2 → issues ks (m1 ;; m2).
Proof. intros H1 H2. by apply (issues_bind [] ks). Qed.

(** ** The remote call and its notification *)

Lemma control_and_notify_run c w :
  control_and_notify control c w =
  mkRun (control w c).1
    (ControlDevice c (control w c).2 ::
       match (control w c).2 with Returned true => [WriteHaState] | _ => [] end)
    (match (control w c).2 with Returned _ => Ok tt | Raised e => Raise e end).
Proof.
  unfold control_and_notify, control_device, async_write_ha_state, emit.
  unfold mbind, M_bind, bind. destruct (control w c) as [w' [[]|e]]; reflexivity.
Qed.

Lemma issues_control_and_notify c : issues [kind_of c] (control_and_notify control c).
Proof.
  intros w. rewrite control_and_notify_run. simpl.
  assert (Hk : kinds (ControlDevice c (control w c).2 ::
                        match (control w c).2 with
                        | Returned true => [WriteHaState]
                        | _ => []
                        end) = [kind_of c]).
  { by destruct (control w c).2 as [[]|e]. }
  rewrite Hk. split; [done|]. split; [done|].
  destruct (control w c).2 as [[]|e] eqn:Hr; rewrite !io_cons; simpl.
  - apply nis_success. constructor.
  - apply nis_failure; [done | constructor].
  - apply nis_failure; [done | constructor].
Qed.

Lemma issues_state self : issues [] (state cached self).
Proof. apply issues_silent. apply state_io. Qed.

Lemma issues_is_on self : issues [] (is_on cached self).
Proof.
  apply (issues_bind [] []); [apply issues_state | intros; apply issues_ret].
Qed.

(** ** The blocks of [async_turn_on] *)

Lemma issues_effect_command self kwargs :
  issues
    match ATTR_EFFECT kwargs with
    | Some effect_name =>
        if dict_get effect_name (_scene_mapping self) is Some _ then [KEffect] else []
    | None => []
    end
    (effect_command control self kwargs).
Proof.
  unfold effect_command. destruct (ATTR_EFFECT kwargs) as [effect_name|];
    [|apply issues_ret].
  destruct (dict_get effect_name (_scene_mapping self)) as [scene_data|];
    [|apply issues_ret].
  apply issues_seq; [apply issues_log|]. apply issues_control_and_notify.
Qed.

Lemma issues_brightness_command self kwargs :
  issues (if ATTR_BRIGHTNESS kwargs is Some _ then [KBrightness] else [])
    (brightness_command control self kwargs).
Proof.
  unfold brightness_command. destruct (ATTR_BRIGHTNESS kwargs);
    [apply issues_control_and_notify | apply issues_ret].
Qed.

Lemma issues_color_temp_command kwargs :
  issues (if ATTR_COLOR_TEMP_KELVIN kwargs is Some _ then [KColorTemp] else [])
    (color_temp_command control kwargs).
Proof.
  unfold color_temp_command. destruct (ATTR_COLOR_TEMP_KELVIN kwargs);
    [apply issues_control_and_notify | apply issues_ret].
Qed.

Lemma issues_rgb_command kwargs :
  issues (if ATTR_RGB_COLOR kwargs is Some _ then [KRgb] else [])
    (rgb_command control kwargs).
Proof.
  unfold rgb_command. destruct (ATTR_RGB_COLOR kwargs);
    [apply issues_control_and_notify | apply issues_ret].
Qed.

Lemma issues_attribute_commands self kwargs :
  issues (requested_kinds self kwargs) (attribute_commands control self kwargs).
Proof.
  unfold attribute_commands, requested_kinds.
  apply issues_bind; [apply issues_effect_command | intros _].
  apply issues_bind; [apply issues_brightness_command | intros _].
  apply issues_bind; [apply issues_color_temp_command | intros _].
  apply issues_rgb_command.
Qed.

End Entity.

End CommandFacts.

(* ------------------------------------------------------------------ *)

Module TurnOnOffFacts.
Import Py PyFacts MonadFacts Light LightSpec TraceFacts PropertyFacts CommandFacts.

Section Entity.
Context {World : Type}.
Variable cached : World → string → string → Value.
Variable control : World → StateCapability → World * Reply.
Implicit Types (self : GoveeLifeLight) (w : World) (kwargs : TurnOnArgs).

(** ** [is_on] *)

Lemma is_on_world self w : world_after (is_on cached self w) = w.
Proof.
  unfold is_on. rewrite world_after_bind.
  destruct (outcome (state cached self w)); simpl; apply state_world.
Qed.

Lemma is_on_calls self w : calls (trace (is_on cached self w)) = [].
Proof.
  rewrite <- calls_io. destruct (issues_is_on cached self w) as (Hpre & _ & _).
  unfold kinds in Hpre. apply prefix_nil_inv in Hpre.
  apply fmap_nil_inv in Hpre. by rewrite calls_io.
Qed.

Lemma is_on_io self w : io (trace (is_on cached self w)) = [].
Proof.
  unfold is_on. rewrite trace_bind, io_app, state_io.
  by destruct (outcome (state cached self w)).
Qed.

(** [is_on] answers true exactly when the cached power value can be looked
    up and maps to "on". *)
Lemma is_on_true self w :
  outcome (is_on cached self w) = Ok true ↔
  hashable (cached w "devices.capabilities.on_off" "powerSwitch") = true ∧
  cached_on cached self w.
Proof.
  unfold is_on, cached_on. rewrite outcome_bind.
  destruct (hashable (cached w "devices.capabilities.on_off" "powerSwitch")) eqn:Hh.
  - rewrite state_outcome by done. simpl.
    destruct (_state_mapping self !! _) as [s|]; simpl.
    + split.
      * intros [= Hs]. apply bool_decide_eq_true in Hs. by subst.
      * intros [_ [= ->]]. done.
    + split; [done | by intros [_ ?]].
  - unfold state, get_cached, hash_key. simpl. rewrite Hh. simpl.
    split; [done | by intros [? _]].
Qed.

Lemma is_on_false self w :
  outcome (is_on cached self w) = Ok false ↔
  hashable (cached w "devices.capabilities.on_off" "powerSwitch") = true ∧
  ¬ cached_on cached self w.
Proof.
  unfold is_on, cached_on. rewrite outcome_bind.
  destruct (hashable (cached w "devices.capabilities.on_off" "powerSwitch")) eqn:Hh.
  - rewrite state_outcome by done. simpl.
    destruct (_state_mapping self !! _) as [s|]; simpl.
    + split.
      * intros [= Hs]. apply bool_decide_eq_false in Hs. split; [done|]. by intros [= ->].
      * intros [_ Hs]. f_equal. apply bool_decide_eq_false. by intros ->.
    + split; [done | done].
  - unfold state, get_cached, hash_key. simpl. rewrite Hh. simpl.
    split; [done | by intros [? _]].
Qed.

(** ** The power blocks *)

Lemma power_on_command_run self w :
  calls (trace (power_on_command cached control self w)) =
    match outcome (is_on cached self w), _state_mapping_set self !! STATE_ON with
    | Ok false, Some value => [power_capability value]
    | _, _ => []
    end ∧
  notified_iff_success (io (trace (power_on_command cached control self w))) ∧
  (∀ u, outcome (power_on_command cached control self w) = Ok u →
        ∃ on, outcome (is_on cached self w) = Ok on ∧
              (on = false → is_Some (_state_mapping_set self !! STATE_ON))).
Proof.
  unfold power_on_command.
  rewrite trace_bind, outcome_bind, calls_app, io_app, is_on_calls, is_on_io, is_on_world.
  destruct (outcome (is_on cached self w)) as [[]|e]; simpl.
  - split; [done|]. split; [constructor|]. intros u _. by exists true.
  - destruct (_state_mapping_set self !! STATE_ON) as [value|]; simpl.
    + change (subscript (Some value) ≫= _)
        with (mret value ≫= λ v, control_and_notify control (power_capability v)
              : M World Event unit).
      destruct (issues_control_and_notify control (power_capability value) w)
        as (_ & _ & Hnis).
      unfold mbind, mret, M_bind, M_ret, bind, ret. simpl.
      rewrite control_and_notify_run in *. simpl in *.
      split; [|split]; [|done|].
      * unfold power_capability.
        by match goal with
           | |- context [match ?r with Returned _ => _ | Raised _ => _ end] =>
               destruct r as [[]|]
           end.
      * intros u _. exists false. eauto.
    + split; [done|]. split; [constructor|]. intros u Hu. done.
  - split; [done|]. split; [constructor|]. done.
Qed.

Lemma power_off_command_run self w :
  calls (trace (power_off_command cached control self w)) =
    match outcome (is_on cached self w), _state_mapping_set self !! STATE_OFF with
    | Ok true, Some value => [power_capability value]
    | _, _ => []
    end ∧
  notified_iff_success (io (trace (power_off_command cached control self w))) ∧
  (outcome (is_on cached self w) ≠ Ok true →
   io (trace (power_off_command cached control self w)) = []).
Proof.
  unfold power_off_command.
  rewrite trace_bind, calls_app, io_app, is_on_calls, is_on_io, is_on_world.
  destruct (outcome (is_on cached self w)) as [[]|e]; simpl.
  - destruct (_state_mapping_set self !! STATE_OFF) as [value|]; simpl.
    + change (subscript (Some value) ≫= _)
        with (mret value ≫= λ v, control_and_notify control (power_capability v)
              : M World Event unit).
      destruct (issues_control_and_notify control (power_capability value) w)
        as (_ & _ & Hnis).
      unfold mbind, mret, M_bind, M_ret, bind, ret. simpl.
      rewrite control_and_notify_run in *. simpl in *.
      split; [|split]; [|done|done].
      unfold power_capability.
      by match goal with
         | |- context [match ?r with Returned _ => _ | Raised _ => _ end] =>
             destruct r as [[]|]
         end.
    + split; [done|]. split; [constructor|done].
  - split; [done|]. split; [constructor|done].
  - split; [done|]. split; [constructor|done].
Qed.

Lemma async_turn_off_io self w :
  io (trace (async_turn_off cached control self w)) =
  io (trace (power_off_command cached control self w)).
Proof.
  unfold async_turn_off, async_turn_off_body.
  rewrite trace_try_except.
  repeat (rewrite ?outcome_bind, ?trace_bind, ?world_after_bind; simpl).
  rewrite !io_cons. simpl. rewrite io_app.
  destruct (outcome (power_off_command cached control self w)); simpl;
    by rewrite ?app_nil_r.
Qed.

(** ** [async_turn_on] *)

(** The trace of a turn-on call: the attribute blocks, then, if none of
    them raised, the power block; around them only log records. *)
Lemma async_turn_on_trace self kwargs w :
  ∃ logs1 logs2,
    io logs1 = [] ∧ io logs2 = [] ∧
    trace (async_turn_on cached control self kwargs w) =
    logs1 ++
    trace (attribute_commands control self kwargs w) ++
    match outcome (attribute_commands control self kwargs w) with
    | Ok _ =>
        trace (power_on_command cached control self
                 (world_after (attribute_commands control self kwargs w)))
    | Raise _ => []
    end ++ logs2.
Proof.
  unfold async_turn_on, async_turn_on_body.
  rewrite trace_try_except.
  repeat (rewrite ?outcome_bind, ?trace_bind, ?world_after_bind; simpl).
  exists [Log DEBUG "async_turn_on"; Log DEBUG "async_turn_on: kwargs"].
  eexists. split; [done|]. split; [|by rewrite <- !app_assoc].
  destruct (outcome (attribute_commands control self kwargs w)); [|done].
  by destruct (outcome (power_on_command cached control self _)).
Qed.

Lemma calls_silent t : io t = [] → calls t = [].
Proof. intros Hio. by rewrite <- calls_io, Hio. Qed.

Lemma async_turn_on_calls self kwargs w :
  calls (trace (async_turn_on cached control self kwargs w)) =
  calls (trace (attribute_commands control self kwargs w)) ++
  match outcome (attribute_commands control self kwargs w) with
  | Ok _ =>
      calls (trace (power_on_command cached control self
                      (world_after (attribute_commands control self kwargs w))))
  | Raise _ => []
  end.
Proof.
  destruct (async_turn_on_trace self kwargs w) as (l1 & l2 & H1 & H2 & ->).
  rewrite !calls_app, (calls_silent l1), (calls_silent l2), app_nil_r by done.
  simpl. by destruct (outcome (attribute_commands control self kwargs w)).
Qed.

Lemma async_turn_on_io self kwargs w :
  io (trace (async_turn_on cached control self kwargs w)) =
  io (trace (attribute_commands control self kwargs w)) ++
  match outcome (attribute_commands control self kwargs w) with
  | Ok _ =>
      io (trace (power_on_command cached control self
                   (world_after (attribute_commands control self kwargs w))))
  | Raise _ => []
  end.
Proof.
  destruct (async_turn_on_trace self kwargs w) as (l1 & l2 & H1 & H2 & ->).
  rewrite !io_app, H1, H2, app_nil_r. simpl.
  by destruct (outcome (attribute_commands control self kwargs w)).
Qed.

Lemma async_turn_on_body_outcome self kwargs w :
  outcome (async_turn_on_body cached control self kwargs w) =
  match outcome (attribute_commands control self kwargs w) with
  | Ok _ =>
      outcome (power_on_command cached control self
                 (world_after (attribute_commands control self kwargs w)))
  | Raise e => Raise e
  end.
Proof.
  unfold async_turn_on_body.
  by repeat (rewrite ?outcome_bind, ?world_after_bind; simpl).
Qed.

(** The kind of the power command. *)
Lemma kind_of_power value : kind_of (power_capability value) = KPower.
Proof. reflexivity. Qed.

Lemma power_not_requested self kwargs : KPower ∉ requested_kinds self kwargs.
Proof.
  unfold requested_kinds. intros Hin.
  repeat (apply elem_of_app in Hin as [Hin|Hin]); repeat case_match;
    first [ by apply elem_of_nil in Hin
          | by apply list_elem_of_singleton in Hin ].
Qed.

Lemma attribute_commands_brightness_only self brightness w :
  attribute_commands control self (brightness_only brightness) w =
  control_and_notify control (brightness_capability self brightness) w.
Proof.
  unfold attribute_commands, effect_command, brightness_command,
    color_temp_command, rgb_command, brightness_capability. simpl.
  unfold mbind, mret, M_bind, M_ret, bind, ret. simpl.
  match goal with
  | |- context [control_and_notify control ?c w] =>
      destruct (control_and_notify control c w) as [w' t [[]|e]]
  end; simpl; by rewrite ?app_nil_r.
Qed.

(** C1: the remote calls of a turn-on call are, in this order, the
    commands for the requested effect, brightness, colour temperature and
    RGB colour, then the power command; an exception cuts the sequence
    short, and a call that completes has issued all of them.  The power
    command is issued only if the power value cached after the attribute
    commands does not map to "on".  In particular a request with only a
    brightness, on a device that is not on, issues exactly the brightness
    command and then the power command, and on a device that is on exactly
    the brightness command. *)
Theorem turn_on_command_order self kwargs w :
  kinds (trace (async_turn_on cached control self kwargs w))
    `prefix_of` requested_kinds self kwargs ++ [KPower] ∧
  (outcome (async_turn_on_body cached control self kwargs w) = Ok tt →
   kinds (trace (async_turn_on cached control self kwargs w)) =
   requested_kinds self kwargs ++
   if decide (cached_on cached self
                (world_after (attribute_commands control self kwargs w)))
   then [] else [KPower]) ∧
  (KPower ∈ kinds (trace (async_turn_on cached control self kwargs w)) →
   ¬ cached_on cached self (world_after (attribute_commands control self kwargs w))) ∧
  (∀ brightness,
     kwargs = brightness_only brightness →
     let c := brightness_capability self brightness in
     let w1 := (control w c).1 in
     (∀ ok value,
        (control w c).2 = Returned ok →
        hashable (cached w1 "devices.capabilities.on_off" "powerSwitch") = true →
        ¬ cached_on cached self w1 →
        _state_mapping_set self !! STATE_ON = Some value →
        calls (trace (async_turn_on cached control self kwargs w)) =
        [c; power_capability value]) ∧
     (cached_on cached self w1 →
      calls (trace (async_turn_on cached control self kwargs w)) = [c])).
Proof.
  pose proof (issues_attribute_commands control self kwargs w) as (Hpre & Hall & _).
  set (ra := attribute_commands control self kwargs w) in *.
  pose proof (power_on_command_run self (world_after ra)) as (Hpow & _ & Hpok).
  assert (Hkinds : kinds (trace (async_turn_on cached control self kwargs w)) =
                   kinds (trace ra) ++
                   match outcome ra with
                   | Ok _ => kinds (trace (power_on_command cached control self (world_after ra)))
                   | Raise _ => []
                   end).
  { unfold kinds. rewrite async_turn_on_calls, fmap_app. fold ra.
    by destruct (outcome ra). }
  assert (Hpk : kinds (trace (power_on_command cached control self (world_after ra))) =
                match outcome (is_on cached self (world_after ra)),
                      _state_mapping_set self !! STATE_ON with
                | Ok false, Some _ => [KPower]
                | _, _ => []
                end).
  { unfold kinds. rewrite Hpow.
    destruct (outcome (is_on cached self (world_after ra))) as [[]|];
      by destruct (_state_mapping_set self !! STATE_ON). }
  split; [|split; [|split]].
  - rewrite Hkinds. destruct (outcome ra) as [[]|e] eqn:Hra.
    + rewrite (Hall tt eq_refl). apply prefix_app. rewrite Hpk.
      destruct (outcome (is_on cached self (world_after ra))) as [[]|];
        destruct (_state_mapping_set self !! STATE_ON); by apply prefix_nil || done.
    + rewrite app_nil_r. by apply prefix_app_r.
  - rewrite async_turn_on_body_outcome. fold ra. rewrite Hkinds.
    destruct (outcome ra) as [[]|e] eqn:Hra; [|done].
    intros Hok. rewrite (Hall tt eq_refl), Hpk. f_equal.
    destruct (Hpok tt Hok) as (on & Hon & Hset). rewrite Hon.
    destruct on.
    + apply is_on_true in Hon as [_ Hon]. by rewrite decide_True.
    + destruct (Hset eq_refl) as [value ->].
      apply is_on_false in Hon as [_ Hon]. by rewrite decide_False.
  - rewrite Hkinds. intros Hin. apply elem_of_app in Hin as [Hin|Hin].
    + exfalso. destruct Hpre as [rest Hrest].
      assert (Hreq : KPower ∈ requested_kinds self kwargs).
      { rewrite Hrest. apply elem_of_app. by left. }
      by apply power_not_requested in Hreq.
    + destruct (outcome ra); [|by apply elem_of_nil in Hin].
      rewrite Hpk in Hin.
      destruct (outcome (is_on cached self (world_after ra))) as [[]|] eqn:Hon;
        try (by apply elem_of_nil in Hin).
      by apply is_on_false in Hon as [_ Hon].
  - intros brightness -> c w1. subst c w1.
    rewrite async_turn_on_calls. unfold ra.
    rewrite attribute_commands_brightness_only, control_and_notify_run. simpl.
    set (c := brightness_capability self brightness).
    set (w1 := (control w c).1).
    rewrite (proj1 (power_on_command_run self w1)).
    assert (Hc : calls match (control w c).2 with
                       | Returned true => [WriteHaState]
                       | _ => []
                       end = []).
    { by destruct (control w c).2 as [[]|]. }
    rewrite Hc. simpl. split.
    + intros ok value Hret Hh Hoff Hset. rewrite Hret, Hset.
      by rewrite (proj2 (is_on_false self w1) (conj Hh Hoff)).
    + intros Hon. destruct (control w c).2; [|done].
      destruct (outcome (is_on cached self w1)) as [[]|] eqn:Hison; try done.
      by apply is_on_false in Hison as [_ Hoff].
Qed.

(** The brightness the entity reports, handed back to [async_turn_on],
    asks the device for the value it already has, on a scale of at most 255
    states. *)
Lemma brightness_echo self w v b :
  cached w "devices.capabilities.range" "brightness" = VInt v →
  (fst (_brightness_scale self) ≤ v ≤ snd (_brightness_scale self))%Z →
  (Brightness.states_in_range (_brightness_scale self) ≤ 255)%Z →
  outcome (brightness cached self w) = Ok b →
  brightness_capability self b =
  {| sc_type := "devices.capabilities.range";
     sc_instance := "brightness";
     sc_value := VInt v |}.
Proof.
  intros Hcached Hv Hstates. unfold brightness, get_cached.
  unfold mbind, M_bind, bind. simpl. rewrite Hcached.
  destruct (_brightness_scale self) as [lo hi] eqn:Hscale. simpl in Hv.
  rewrite bool_decide_eq_false_2
    by (unfold Brightness.states_in_range; simpl; lia).
  simpl. intros [= <-]. unfold brightness_capability. rewrite Hscale.
  do 2 f_equal. by apply BrightnessFacts.brightness_roundtrip_exact.
Qed.

(** C6, turn-on and turn-off alike: in the trace of the call every remote
    control call is followed at once by a state-change notification when it
    returned success, by none when it returned failure or raised, and there
    is no notification that does not follow a successful call. *)
Theorem notified_exactly_on_success self kwargs w :
  notified_iff_success (io (trace (async_turn_on cached control self kwargs w))) ∧
  notified_iff_success (io (trace (async_turn_off cached control self w))).
Proof.
  split.
  - rewrite async_turn_on_io. apply notified_iff_success_app.
    + apply (issues_attribute_commands control self kwargs w).
    + destruct (outcome (attribute_commands control self kwargs w)); [|constructor].
      apply power_on_command_run.
  - rewrite async_turn_off_io. apply power_off_command_run.
Qed.

(** C10: turn-off issues a remote call only when the cached power value
    maps to "on", and then it is the one power-off command; when the value
    does not map to "on", an unmapped value included, turn-off calls
    nothing and notifies nothing. *)
Theorem turn_off_only_when_on self w :
  (∀ c, c ∈ calls (trace (async_turn_off cached control self w)) →
     cached_on cached self w ∧
     ∃ value, _state_mapping_set self !! STATE_OFF = Some value ∧
              calls (trace (async_turn_off cached control self w)) = [power_capability value]) ∧
  (¬ cached_on cached self w → io (trace (async_turn_off cached control self w)) = []) ∧
  (_state_mapping self !! cached w "devices.capabilities.on_off" "powerSwitch" = None →
   io (trace (async_turn_off cached control self w)) = []) ∧
  (∀ value,
     hashable (cached w "devices.capabilities.on_off" "powerSwitch") = true →
     cached_on cached self w →
     _state_mapping_set self !! STATE_OFF = Some value →
     calls (trace (async_turn_off cached control self w)) = [power_capability value]).
Proof.
  destruct (power_off_command_run self w) as (Hcalls & _ & Hquiet).
  assert (Hc : calls (trace (async_turn_off cached control self w)) =
               calls (trace (power_off_command cached control self w))).
  { by rewrite <- calls_io, async_turn_off_io, calls_io. }
  rewrite async_turn_off_io, Hc, Hcalls.
  split; [|split; [|split]].
  - intros c Hin.
    destruct (outcome (is_on cached self w)) as [[]|] eqn:Hon;
      try (by apply elem_of_nil in Hin).
    destruct (_state_mapping_set self !! STATE_OFF) as [value|];
      [|by apply elem_of_nil in Hin].
    apply is_on_true in Hon as [_ Hon]. split; [done|]. by exists value.
  - intros Hoff. apply Hquiet. intros Hon. by apply is_on_true in Hon as [_ Hon].
  - intros Hnone. apply Hquiet. intros Hon. apply is_on_true in Hon as [_ Hon].
    unfold cached_on in Hon. by rewrite Hnone in Hon.
  - intros value Hh Hon ->. by rewrite (proj2 (is_on_true self w) (conj Hh Hon)).
Qed.

End Entity.

End TurnOnOffFacts.

(* ------------------------------------------------------------------ *)

Module ServicesFacts.
Import Py PyFacts MonadFacts Services.

Section Domain.
Variable DOMAIN : string.
Implicit Types (hass : Hass) (name : string) (service : ServiceFn) (call : ServiceCall).

(** ** [async_registerService] *)

(** One call: it registers the handler when the name is free and does
    nothing to the registry when the name is taken. *)
Lemma async_registerService_run name service hass :
  outcome (async_registerService DOMAIN name service hass) = Ok tt ∧
  match services hass !! (DOMAIN, name) with
  | None =>
      world_after (async_registerService DOMAIN name service hass) =
        {| data := data hass;
           services := <[(DOMAIN, name) := partial service]> (services hass) |} ∧
      registrations (trace (async_registerService DOMAIN name service hass)) =
        [(DOMAIN, name, partial service)]
  | Some _ =>
      world_after (async_registerService DOMAIN name service hass) = hass ∧
      registrations (trace (async_registerService DOMAIN name service hass)) = []
  end.
Proof.
  unfold async_registerService, async_registerService_body, try_except,
    has_service, async_register, log, emit.
  unfold mbind, M_bind, bind. simpl.
  by destruct (services hass !! (DOMAIN, name)) as [h|] eqn:Hs.
Qed.

(** C8: registering a name twice in a row, whatever the two service
    functions, raises nothing and changes nothing the second time: the
    second call asks the host for no registration and leaves [hass] as the
    first call left it, so the name has the one registration it had after
    the first call.  Starting from a free name, the two calls together ask
    the host for exactly one registration, that of the first service. *)
Theorem register_service_idempotent name service service' hass :
  outcome (async_registerService DOMAIN name service hass) = Ok tt ∧
  outcome (async_registerService DOMAIN name service'
             (world_after (async_registerService DOMAIN name service hass))) = Ok tt ∧
  world_after (async_registerService DOMAIN name service'
                 (world_after (async_registerService DOMAIN name service hass))) =
    world_after (async_registerService DOMAIN name service hass) ∧
  registrations (trace (async_registerService DOMAIN name service'
                          (world_after (async_registerService DOMAIN name service hass)))) = [] ∧
  is_Some (services (world_after (async_registerService DOMAIN name service hass))
             !! (DOMAIN, name)) ∧
  (services hass !! (DOMAIN, name) = None →
   services (world_after (async_registerService DOMAIN name service hass)) !! (DOMAIN, name) =
     Some (partial service) ∧
   registrations
     (trace (async_registerService DOMAIN name service hass) ++
      trace (async_registerService DOMAIN name service'
               (world_after (async_registerService DOMAIN name service hass)))) =
     [(DOMAIN, name, partial service)]).
Proof.
  destruct (async_registerService_run name service hass) as [Ho1 H1].
  set (hass1 := world_after (async_registerService DOMAIN name service hass)) in *.
  destruct (async_registerService_run name service' hass1) as [Ho2 H2].
  assert (Hreg : is_Some (services hass1 !! (DOMAIN, name))).
  { destruct (services hass !! (DOMAIN, name)) as [h|] eqn:Hs.
    - destruct H1 as [-> _]. rewrite Hs. eauto.
    - destruct H1 as [-> _]. simpl. rewrite lookup_insert_eq. eauto. }
  destruct Hreg as [h Hh]. rewrite Hh in H2. destruct H2 as [Hw2 Hr2].
  split; [done|]. split; [done|]. split; [done|]. split; [done|].
  split; [eauto|].
  intros Hfree. rewrite Hfree in H1. destruct H1 as [Hw1 Hr1].
  unfold registrations in *. rewrite omap_app, Hr1, Hr2. split; [|done].
  rewrite Hw1. simpl. apply lookup_insert_eq.
Qed.

(** Setting the services up twice registers [set_segment_colors] once. *)
Corollary async_setup_services_twice hass :
  services hass !! (DOMAIN, "set_segment_colors") = None →
  registrations
    (trace (async_setup_services DOMAIN hass) ++
     trace (async_setup_services DOMAIN (world_after (async_setup_services DOMAIN hass)))) =
  [(DOMAIN, "set_segment_colors", partial async_service_SetSegmentColors_fn)].
Proof.
  intros Hfree. unfold async_setup_services.
  destruct (async_registerService_run "set_segment_colors"
              async_service_SetSegmentColors_fn hass) as [_ Hfirst].
  rewrite Hfree in Hfirst. destruct Hfirst as [Hw Hr].
  destruct (async_registerService_run "set_segment_colors"
              async_service_SetSegmentColors_fn
              (world_after (async_registerService DOMAIN "set_segment_colors"
                              async_service_SetSegmentColors_fn hass))) as [_ Hsecond].
  assert (Hreg : services (world_after (async_registerService DOMAIN "set_segment_colors"
                                          async_service_SetSegmentColors_fn hass))
                    !! (DOMAIN, "set_segment_colors") =
                  Some (partial async_service_SetSegmentColors_fn)).
  { rewrite Hw. simpl. apply lookup_insert_eq. }
  rewrite Hreg in Hsecond. destruct Hsecond as [_ Hr2].
  unfold registrations in *. by rewrite omap_app, Hr, Hr2.
Qed.

(** ** [async_service_SetPollInterval] *)

(** The store either completes or raises before it has written anything. *)
Lemma store_scan_interval_raise entry_id scan_interval hass e :
  outcome (store_scan_interval DOMAIN entry_id scan_interval hass) = Raise e →
  world_after (store_scan_interval DOMAIN entry_id scan_interval hass) = hass ∧
  trace (store_scan_interval DOMAIN entry_id scan_interval hass) = [].
Proof.
  unfold store_scan_interval, get_world, hash_key, subscript, put_world.
  unfold mbind, M_bind, bind. simpl.
  destruct (data hass !! DOMAIN) as [domain_data|]; simpl; [|done].
  destruct (hashable entry_id); simpl; [|done].
  destruct (domain_data !! entry_id) as [[d|light]|]; simpl; done.
Qed.

(** On an entry that exists the store writes the interval into the data of
    that entry and touches nothing else. *)
Lemma store_scan_interval_ok entry_id scan_interval hass domain_data d :
  data hass !! DOMAIN = Some domain_data →
  hashable entry_id = true →
  domain_data !! entry_id = Some (EntryData d) →
  store_scan_interval DOMAIN entry_id scan_interval hass =
  mkRun
    {| data :=
         <[DOMAIN :=
             <[entry_id := EntryData (<[CONF_SCAN_INTERVAL := scan_interval]> d)]>
               domain_data]> (data hass);
       services := services hass |}
    [] (Ok tt).
Proof.
  intros Hd Hh He.
  unfold store_scan_interval, get_world, hash_key, subscript, put_world.
  unfold mbind, M_bind, bind. simpl. rewrite Hd. simpl. rewrite Hh. simpl.
  rewrite He. done.
Qed.

Lemma SetPollInterval_body_raise call hass e :
  outcome (async_service_SetPollInterval_body DOMAIN call hass) = Raise e →
  world_after (async_service_SetPollInterval_body DOMAIN call hass) = hass ∧
  trace (async_service_SetPollInterval_body DOMAIN call hass) = [].
Proof.
  unfold async_service_SetPollInterval_body.
  case_bool_decide; [done|]. case_bool_decide; [done|].
  rewrite outcome_bind, world_after_bind, trace_bind.
  destruct (outcome (store_scan_interval DOMAIN _ _ hass)) as [[]|e'] eqn:Hs; [done|].
  intros _. destruct (store_scan_interval_raise _ _ _ _ Hs) as [-> ->]. done.
Qed.

(** A call that lacks either required parameter logs an error and returns
    with [hass] untouched. *)
Lemma SetPollInterval_missing_parameter call hass :
  call_data call !! CONF_SCAN_INTERVAL = None ∨ call_data call !! CONF_ENTRY_ID = None →
  async_service_SetPollInterval DOMAIN call hass =
  mkRun hass
    [Log ERROR
       (if bool_decide (default VNone (call_data call !! CONF_SCAN_INTERVAL) = VNone)
        then "async_service_SetPollInterval: scan_interval is a required parameter"
        else "async_service_SetPollInterval: entry_id is a required parameter")]
    (Ok tt).
Proof.
  intros Hmissing.
  unfold async_service_SetPollInterval, async_service_SetPollInterval_body, try_except.
  case_bool_decide as Hs; [done|].
  destruct Hmissing as [Hm|Hm]; [by rewrite Hm in Hs|].
  rewrite Hm. simpl. done.
Qed.

(** ** [async_service_SetSegmentColors] *)

(** The handler never reaches the remote call: it returns early when the
    entity is not found and otherwise raises before it can send anything.
    Either way [hass] is as before. *)
Lemma SetSegmentColors_body_run call hass :
  world_after (async_service_SetSegmentColors_body DOMAIN call hass) = hass ∧
  (outcome (async_service_SetSegmentColors_body DOMAIN call hass) = Ok tt →
   trace (async_service_SetSegmentColors_body DOMAIN call hass) =
     [Log ERROR "Entity not found"]).
Proof.
  unfold async_service_SetSegmentColors_body, first_entity_id, get_world, hash_key,
    subscript.
  unfold mbind, mret, M_bind, M_ret, bind, ret. simpl.
  destruct (call_target call !! "entity_id") as [[|entity_id ids]|]; simpl; try done.
  destruct (data hass !! DOMAIN) as [domain_data|]; simpl; [|done].
  destruct (hashable entity_id); simpl; [|done].
  destruct (domain_data !! entity_id) as [item|]; simpl; [|done].
  by destruct (truthy item).
Qed.

End Domain.

End ServicesFacts.

(* ------------------------------------------------------------------ *)

Module EntryPointFacts.
Import Py PyFacts MonadFacts Light LightSpec Services ServicesFacts.

Section Host.
Context {World : Type}.
Variable cached : World → string → string → Value.
Variable control : World → StateCapability → World * Reply.
Variable DOMAIN : string.

(** C7: none of the four entry points lets an exception out.  Each returns
    [None] on every input; when its [try] block raises, the exception is
    logged as the last record of the call and nothing more is done.  The
    poll-interval service leaves [hass] as it was whenever it fails, and when
    either required parameter is absent it logs an error and returns with
    [hass] untouched. *)
Theorem entry_points_never_raise
    (self : GoveeLifeLight) (kwargs : TurnOnArgs) (w : World)
    (call : ServiceCall) (hass : Hass) :
  (outcome (async_turn_on cached control self kwargs w) = Ok tt ∧
   ∀ e, outcome (async_turn_on_body cached control self kwargs w) = Raise e →
        trace (async_turn_on cached control self kwargs w) =
        trace (async_turn_on_body cached control self kwargs w) ++
        [Light.LogException "async_turn_on failed" e]) ∧
  (outcome (async_turn_off cached control self w) = Ok tt ∧
   ∀ e, outcome (async_turn_off_body cached control self w) = Raise e →
        trace (async_turn_off cached control self w) =
        trace (async_turn_off_body cached control self w) ++
        [Light.LogException "async_turn_off failed" e]) ∧
  (outcome (async_service_SetPollInterval DOMAIN call hass) = Ok tt ∧
   ∀ e, outcome (async_service_SetPollInterval_body DOMAIN call hass) = Raise e →
        trace (async_service_SetPollInterval DOMAIN call hass) =
          [LogException "async_service_SetPollInterval: failed" e] ∧
        world_after (async_service_SetPollInterval DOMAIN call hass) = hass) ∧
  (outcome (async_service_SetSegmentColors DOMAIN call hass) = Ok tt ∧
   world_after (async_service_SetSegmentColors DOMAIN call hass) = hass ∧
   ∀ e, outcome (async_service_SetSegmentColors_body DOMAIN call hass) = Raise e →
        trace (async_service_SetSegmentColors DOMAIN call hass) =
        trace (async_service_SetSegmentColors_body DOMAIN call hass) ++
        [LogException "Failed to set segment colors" e]) ∧
  (call_data call !! CONF_SCAN_INTERVAL = None ∨ call_data call !! CONF_ENTRY_ID = None →
   outcome (async_service_SetPollInterval DOMAIN call hass) = Ok tt ∧
   world_after (async_service_SetPollInterval DOMAIN call hass) = hass ∧
   ∃ msg, trace (async_service_SetPollInterval DOMAIN call hass) = [Log ERROR msg]).
Proof.
  split; [|split; [|split; [|split]]].
  - destruct (try_except_logged (async_turn_on_body cached control self kwargs)
                (Light.LogException "async_turn_on failed") w) as (Ho & Hraise & _).
    split; [exact Ho|]. intros e He. by destruct (Hraise e He).
  - destruct (try_except_logged (async_turn_off_body cached control self)
                (Light.LogException "async_turn_off failed") w) as (Ho & Hraise & _).
    split; [exact Ho|]. intros e He. by destruct (Hraise e He).
  - destruct (try_except_logged (async_service_SetPollInterval_body DOMAIN call)
                (LogException "async_service_SetPollInterval: failed") hass)
      as (Ho & Hraise & _).
    split; [exact Ho|]. intros e He. destruct (Hraise e He) as [Ht Hw].
    destruct (SetPollInterval_body_raise DOMAIN call hass e He) as [Hw' Ht'].
    unfold async_service_SetPollInterval. by rewrite Ht, Hw, Ht', Hw'.
  - destruct (try_except_logged (async_service_SetSegmentColors_body DOMAIN call)
                (LogException "Failed to set segment colors") hass)
      as (Ho & Hraise & Hok).
    destruct (SetSegmentColors_body_run DOMAIN call hass) as [Hw _].
    split; [exact Ho|]. split.
    + unfold async_service_SetSegmentColors.
      destruct (outcome (async_service_SetSegmentColors_body DOMAIN call hass))
        as [[]|e] eqn:Hb.
      * destruct (Hok eq_refl) as [_ ->]. exact Hw.
      * destruct (Hraise e eq_refl) as [_ ->]. exact Hw.
    + intros e He. by destruct (Hraise e He).
  - intros Hmissing. rewrite (SetPollInterval_missing_parameter DOMAIN call hass Hmissing).
    simpl. split; [done|]. split; [done|]. eauto.
Qed.

End Host.

End EntryPointFacts.

(* ------------------------------------------------------------------ *)

(** The statements above at the fixtures. *)
Module Scenarios.
Import Py Light LightSpec Services Fixtures.
Import PropertyFacts TurnOnOffFacts ServicesFacts EntryPointFacts.
Local Open Scope Z_scope.

(** ** Turn-on *)

(** Brightness 128 on the strip while it is off: the brightness command,
    then the power command, each notified. *)
Example turn_on_brightness_when_off :
  trace (async_turn_on cache_read obedient_device strip (brightness_only 128) off_world) =
  [ Light.Log DEBUG "async_turn_on";
    Light.Log DEBUG "async_turn_on: kwargs";
    ControlDevice (brightness_capability strip 128) (Returned true);
    WriteHaState;
    ControlDevice (power_capability (VInt 1)) (Returned true);
    WriteHaState ] ∧
  sc_value (brightness_capability strip 128) = VInt 51.
Proof. by vm_compute. Qed.

(** A remote function that raises on the first command ends the call
    there; the exception is logged. *)
Example turn_on_aborted_by_exception :
  calls (trace (async_turn_on cache_read broken_device strip
                  {| ATTR_EFFECT := None;
                     ATTR_BRIGHTNESS := Some 255;
                     ATTR_COLOR_TEMP_KELVIN := Some 4000;
                     ATTR_RGB_COLOR := Some (255, 128, 0) |} off_world)) =
  [ brightness_capability strip 255 ] ∧
  outcome (async_turn_on cache_read broken_device strip
             {| ATTR_EFFECT := None;
                ATTR_BRIGHTNESS := Some 255;
                ATTR_COLOR_TEMP_KELVIN := Some 4000;
                ATTR_RGB_COLOR := Some (255, 128, 0) |} off_world) = Ok tt.
Proof. by vm_compute. Qed.

(** A device out of reach gets every command and no notification. *)
Example turn_on_all_attributes_unreachable :
  io (trace (async_turn_on cache_read deaf_device strip
               {| ATTR_EFFECT := Some "diyScene_Sunrise";
                  ATTR_BRIGHTNESS := Some 255;
                  ATTR_COLOR_TEMP_KELVIN := Some 4000;
                  ATTR_RGB_COLOR := Some (255, 128, 0) |} off_world)) =
  [ ControlDevice
      {| sc_type := "devices.capabilities.dynamic_scene";
         sc_instance := "diyScene";
         sc_value := VInt 11 |} (Returned false);
    ControlDevice
      {| sc_type := "devices.capabilities.range";
         sc_instance := "brightness";
         sc_value := VInt 100 |} (Returned false);
    ControlDevice
      {| sc_type := "devices.capabilities.color_setting";
         sc_instance := "colorTemperatureK";
         sc_value := VInt 4000 |} (Returned false);
    ControlDevice
      {| sc_type := "devices.capabilities.color_setting";
         sc_instance := "colorRgb";
         sc_value := VInt 16744448 |} (Returned false);
    ControlDevice (power_capability (VInt 1)) (Returned false) ].
Proof. by vm_compute. Qed.

(** With the state mappings as the class declares them, empty, the power
    command cannot be built: the lookup of the "on" value raises and the
    handler logs it. *)
Example turn_on_without_state_mapping :
  trace (async_turn_on cache_read obedient_device
           (_init_platform_specific (new_light strip_caps (1, 100)))
           (brightness_only 128) off_world) =
  [ Light.Log DEBUG "async_turn_on";
    Light.Log DEBUG "async_turn_on: kwargs";
    ControlDevice
      {| sc_type := "devices.capabilities.range";
         sc_instance := "brightness";
         sc_value := VInt 51 |} (Returned true);
    WriteHaState;
    Light.Log WARNING "state: invalid value";
    Light.Log DEBUG "state: valid are";
    Light.LogException "async_turn_on failed" KeyError ].
Proof. by vm_compute. Qed.

Lemma turn_on_command_order_witness :
  calls (trace (async_turn_on cache_read obedient_device strip (brightness_only 128) off_world)) =
    [brightness_capability strip 128; power_capability (VInt 1)] ∧
  calls (trace (async_turn_on cache_read obedient_device strip (brightness_only 128) on_world)) =
    [brightness_capability strip 128].
Proof.
  split.
  - destruct (turn_on_command_order cache_read obedient_device strip
                (brightness_only 128) off_world) as (_ & _ & _ & Hb).
    destruct (Hb 128 eq_refl) as [Hoff _].
    apply (Hoff true (VInt 1)); [reflexivity | reflexivity | | reflexivity].
    unfold cached_on. vm_compute. discriminate.
  - destruct (turn_on_command_order cache_read obedient_device strip
                (brightness_only 128) on_world) as (_ & _ & _ & Hb).
    destruct (Hb 128 eq_refl) as [_ Hon].
    apply Hon. unfold cached_on. vm_compute. reflexivity.
Defined.

(** ** Turn-off *)

Example turn_off_when_on :
  trace (async_turn_off cache_read obedient_device strip on_world) =
  [ Light.Log DEBUG "async_turn_off";
    Light.Log DEBUG "async_turn_off: kwargs";
    ControlDevice (power_capability (VInt 0)) (Returned true);
    WriteHaState ].
Proof. by vm_compute. Qed.

Example turn_off_when_unknown :
  trace (async_turn_off cache_read obedient_device strip odd_world) =
  [ Light.Log DEBUG "async_turn_off";
    Light.Log DEBUG "async_turn_off: kwargs";
    Light.Log WARNING "state: invalid value";
    Light.Log DEBUG "state: valid are";
    Light.Log DEBUG "async_turn_on: device already off" ].
Proof. by vm_compute. Qed.

Lemma turn_off_only_when_on_witness :
  io (trace (async_turn_off cache_read obedient_device strip off_world)) = [] ∧
  io (trace (async_turn_off cache_read obedient_device strip odd_world)) = [] ∧
  calls (trace (async_turn_off cache_read obedient_device strip on_world)) =
    [power_capability (VInt 0)].
Proof.
  split; [|split].
  - destruct (turn_off_only_when_on cache_read obedient_device strip off_world)
      as (_ & Hoff & _ & _).
    apply Hoff. unfold cached_on. vm_compute. discriminate.
  - destruct (turn_off_only_when_on cache_read obedient_device strip odd_world)
      as (_ & _ & Hunknown & _).
    apply Hunknown. vm_compute. reflexivity.
  - destruct (turn_off_only_when_on cache_read obedient_device strip on_world)
      as (_ & _ & _ & Hon).
    apply (Hon (VInt 0)); [reflexivity | | reflexivity].
    unfold cached_on. vm_compute. reflexivity.
Defined.

(** ** Properties *)


(** A cache with no power value at all reads as [None], which is no key
    of the mapping either. *)
Example state_of_missing_value :
  outcome (state cache_read strip ∅) = Ok STATE_UNKNOWN.
Proof. by vm_compute. Qed.

(** A dict-valued power entry cannot be looked up at all. *)
Example state_of_unhashable_value :
  outcome (state cache_read strip (power_cached (VObj ∅))) = Raise TypeError.
Proof. by vm_compute. Qed.

Lemma effect_first_match_witness :
  outcome (effect cache_read strip off_world) = Ok (Some "diyScene_Sunrise").
Proof.
  destruct (effect_first_match cache_read strip off_world) as [Hspec _].
  rewrite Hspec. vm_compute. reflexivity.
Defined.

(** When a preset scene and a DIY scene are both cached, the preset scene
    is the one reported: lightScene is checked first. *)
Example effect_prefers_light_scene :
  outcome (effect cache_read strip
             (<[("devices.capabilities.dynamic_scene", "lightScene") :=
                  VObj {[ "id" := 3854; "paramId" := 4281 ]}]> off_world)) =
  Ok (Some "lightScene_Sunset").
Proof. by vm_compute. Qed.

Example effect_without_effects :
  trace (effect cache_read (new_light [] (1, 100)) off_world) =
  [Light.Log DEBUG "No effects available"].
Proof. by vm_compute. Qed.

(** ** Services *)

Example poll_interval_updated :
  scan_interval_of GOVEE (VStr "entry1")
    (world_after
       (async_service_SetPollInterval GOVEE
          (poll_call {[ "scan_interval" := VInt 30; "entry_id" := VStr "entry1" ]}) home)) =
  Some (VInt 30) ∧
  scan_interval_of GOVEE (VStr "entry1") home = Some (VInt 60).
Proof. by vm_compute. Qed.

Example poll_interval_unknown_entry :
  trace (async_service_SetPollInterval GOVEE
           (poll_call {[ "scan_interval" := VInt 30; "entry_id" := VStr "entry2" ]}) home) =
    [LogException "async_service_SetPollInterval: failed" KeyError] ∧
  outcome (async_service_SetPollInterval GOVEE
             (poll_call {[ "scan_interval" := VInt 30; "entry_id" := VStr "entry2" ]}) home) =
    Ok tt.
Proof. by vm_compute. Qed.

(** The command for the segment colours is never sent, even when the
    entity is found. *)
Example segment_colors_entity_found :
  trace (async_service_SetSegmentColors GOVEE (segment_call [VStr "light.strip"]) home) =
    [LogException "Failed to set segment colors" NameError] ∧
  outcome (async_service_SetSegmentColors GOVEE (segment_call [VStr "light.strip"]) home) =
    Ok tt.
Proof. by vm_compute. Qed.

Example segment_colors_entity_missing :
  trace (async_service_SetSegmentColors GOVEE (segment_call [VStr "light.lamp"]) home) =
    [Log ERROR "Entity not found"].
Proof. by vm_compute. Qed.

Lemma entry_points_never_raise_witness :
  world_after
    (async_service_SetPollInterval GOVEE (poll_call {[ "scan_interval" := VInt 30 ]}) home) =
    home ∧
  world_after
    (async_service_SetPollInterval GOVEE
       (poll_call {[ "scan_interval" := VInt 30; "entry_id" := VStr "entry2" ]}) home) =
    home ∧
  outcome (async_turn_on cache_read broken_device strip (brightness_only 128) off_world) =
    Ok tt.
Proof.
  split; [|split].
  - destruct (entry_points_never_raise cache_read broken_device GOVEE strip
                (brightness_only 128) off_world
                (poll_call {[ "scan_interval" := VInt 30 ]}) home)
      as (_ & _ & _ & _ & Hmissing).
    apply Hmissing. right. vm_compute. reflexivity.
  - destruct (entry_points_never_raise cache_read broken_device GOVEE strip
                (brightness_only 128) off_world
                (poll_call {[ "scan_interval" := VInt 30; "entry_id" := VStr "entry2" ]}) home)
      as (_ & _ & (_ & Hraise) & _).
    apply (Hraise KeyError). vm_compute. reflexivity.
  - by destruct (entry_points_never_raise cache_read broken_device GOVEE strip
                   (brightness_only 128) off_world (poll_call ∅) home)
      as ((Hok & _) & _).
Defined.

Lemma register_service_idempotent_witness :
  services
    (world_after
       (async_registerService GOVEE "set_segment_colors" async_service_SetPollInterval_fn
          (world_after
             (async_registerService GOVEE "set_segment_colors"
                async_service_SetSegmentColors_fn home))))
    !! (GOVEE, "set_segment_colors") =
  Some (partial async_service_SetSegmentColors_fn).
Proof.
  destruct (register_service_idempotent GOVEE "set_segment_colors"
              async_service_SetSegmentColors_fn async_service_SetPollInterval_fn home)
    as (_ & _ & -> & _ & _ & Hfree).
  apply Hfree. vm_compute. reflexivity.
Defined.

Example register_twice_trace :
  registrations
    (trace (async_setup_services GOVEE home) ++
     trace (async_setup_services GOVEE (world_after (async_setup_services GOVEE home)))) =
  [(GOVEE, "set_segment_colors", partial async_service_SetSegmentColors_fn)].
Proof. by vm_compute. Qed.

End Scenarios.

(* ================================================================== *)
(** * Part III: further properties of the code *)
(* ================================================================== *)

Module ColorMore.
Import Py MonadFacts Color ColorFacts Light.
Local Open Scope Z_scope.

(** X1: decomposition keeps the low 24 bits of any integer, negative ones
    included, and drops the rest: recomposing gives the integer modulo
    [2^24]. *)
Theorem rgb_recompose_mod (N : Z) :
  _getIfromRGB (_getRGBfromI N) = N mod 2 ^ 24.
Proof.
  rewrite getRGBfromI_div_mod, getIfromRGB_linear.
  change (2 ^ 24) with 16777216.
  Z.to_euclidean_division_equations. lia.
Qed.

Section Entity.
Context {World : Type}.
Variable cached : World → string → string → Value.

(** X2: the [rgb_color] property answers with a triple of bytes that packs to
    the cached integer modulo [2^24]; without a cached integer (nothing
    cached, or a string or an object) it raises [TypeError].  It never
    touches the world and logs nothing. *)
Theorem rgb_color_outcome (self : GoveeLifeLight) (w : World) :
  world_after (rgb_color cached self w) = w ∧
  trace (rgb_color cached self w) = [] ∧
  match cached w "devices.capabilities.color_setting" "colorRgb" with
  | VInt n =>
      ∃ r g b,
        outcome (rgb_color cached self w) = Ok (r, g, b) ∧
        0 ≤ r ≤ 255 ∧ 0 ≤ g ≤ 255 ∧ 0 ≤ b ≤ 255 ∧
        r * 65536 + g * 256 + b = n mod 2 ^ 24
  | _ => outcome (rgb_color cached self w) = Raise TypeError
  end.
Proof.
  unfold rgb_color, get_cached. unfold mbind, M_bind, bind. simpl.
  destruct (cached w "devices.capabilities.color_setting" "colorRgb") as [|n|s|o];
    simpl; try done.
  split; [done|]. split; [done|].
  pose proof (getRGBfromI_bytes n) as Hbytes.
  assert (Hmod : _getIfromRGB (_getRGBfromI n) = n mod 2 ^ 24).
  { rewrite getRGBfromI_div_mod, getIfromRGB_linear.
    change (2 ^ 24) with 16777216.
    Z.to_euclidean_division_equations. lia. }
  destruct (_getRGBfromI n) as [[r g] b].
  exists r, g, b. rewrite getIfromRGB_linear in Hmod. by repeat split; try apply Hbytes.
Qed.

End Entity.

End ColorMore.

(* ------------------------------------------------------------------ *)

Module InitMore.
Import Py PyFacts Light LightSpec ExtraSpec InitFacts.
Local Open Scope Z_scope.

(** ** What the initializer leaves alone *)

Lemma add_scene_options_frame scene_instance options self :
  capabilities (add_scene_options scene_instance options self) = capabilities self ∧
  _state_mapping (add_scene_options scene_instance options self) = _state_mapping self ∧
  _state_mapping_set (add_scene_options scene_instance options self) =
    _state_mapping_set self ∧
  _brightness_scale (add_scene_options scene_instance options self) =
    _brightness_scale self ∧
  _attr_supported_color_modes (add_scene_options scene_instance options self) =
    _attr_supported_color_modes self ∧
  _attr_supported_features (add_scene_options scene_instance options self) =
    _attr_supported_features self.
Proof.
  revert self. induction options as [|option options IH]; intros self; [done|].
  simpl. destruct (opt_name option) as [name|], (opt_value option) as [value|];
    match goal with
    | |- context [add_scene_options _ _ ?s] =>
        destruct (IH s) as (-> & -> & -> & -> & -> & ->)
    end; done.
Qed.

Lemma init_capability_frame self cap :
  capabilities (init_capability self cap) = capabilities self ∧
  _state_mapping (init_capability self cap) = _state_mapping self ∧
  _state_mapping_set (init_capability self cap) = _state_mapping_set self ∧
  _brightness_scale (init_capability self cap) = _brightness_scale self ∧
  _attr_supported_color_modes (init_capability self cap) =
    match mode_of cap with
    | Some m => {[ m ]} ∪ _attr_supported_color_modes self
    | None => _attr_supported_color_modes self
    end ∧
  _attr_supported_features (init_capability self cap) =
    if bool_decide (cap_type cap = "devices.capabilities.dynamic_scene")
    then Z.lor (_attr_supported_features self) SUPPORT_EFFECT
    else _attr_supported_features self.
Proof.
  unfold init_capability, mode_of.
  destruct cap as [ty inst opts]; simpl.
  repeat (case_bool_decide; subst; simpl; try done).
  all: match goal with
       | |- context [add_scene_options ?i ?o ?s] =>
           destruct (add_scene_options_frame i o s) as (-> & -> & -> & -> & -> & ->)
       end; done.
Qed.

Lemma lor_effect_twice (f : Z) :
  Z.lor (Z.lor f SUPPORT_EFFECT) SUPPORT_EFFECT = Z.lor f SUPPORT_EFFECT.
Proof. by rewrite <- Z.lor_assoc, Z.lor_diag. Qed.

Lemma fold_init_capability_frame caps self :
  capabilities (fold_left init_capability caps self) = capabilities self ∧
  _state_mapping (fold_left init_capability caps self) = _state_mapping self ∧
  _state_mapping_set (fold_left init_capability caps self) = _state_mapping_set self ∧
  _brightness_scale (fold_left init_capability caps self) = _brightness_scale self ∧
  _attr_supported_color_modes (fold_left init_capability caps self) =
    modes_of caps ∪ _attr_supported_color_modes self ∧
  _attr_supported_features (fold_left init_capability caps self) =
    if has_scenes caps
    then Z.lor (_attr_supported_features self) SUPPORT_EFFECT
    else _attr_supported_features self.
Proof.
  revert self. induction caps as [|cap caps IH]; intros self.
  - simpl. repeat split; try done. unfold modes_of. simpl. by rewrite union_empty_l_L.
  - change (fold_left init_capability (cap :: caps) self)
      with (fold_left init_capability caps (init_capability self cap)).
    destruct (IH (init_capability self cap)) as (-> & -> & -> & -> & -> & ->).
    destruct (init_capability_frame self cap) as (-> & -> & -> & -> & -> & ->).
    repeat split; try done.
    + unfold modes_of. simpl. destruct (mode_of cap) as [m|]; simpl; [|done].
      apply set_eq. intros x. rewrite !elem_of_union. tauto.
    + simpl. case_bool_decide; simpl; [|done].
      destruct (has_scenes caps); [apply lor_effect_twice | done].
Qed.

(** X3: besides the scenes, the initializer adds to the colour modes the class
    already has those of the capabilities, never removing one, and sets the
    feature flags to the effect flag when some capability is a dynamic
    scene and to [0] otherwise, whatever they were; the capability list, the
    two state mappings and the brightness scale stay as they are. *)
Theorem init_modes_and_features (self : GoveeLifeLight) :
  _attr_supported_color_modes (_init_platform_specific self) =
    modes_of (capabilities self) ∪ _attr_supported_color_modes self ∧
  supported_features (_init_platform_specific self) =
    (if has_scenes (capabilities self) then SUPPORT_EFFECT else 0) ∧
  capabilities (_init_platform_specific self) = capabilities self ∧
  _state_mapping (_init_platform_specific self) = _state_mapping self ∧
  _state_mapping_set (_init_platform_specific self) = _state_mapping_set self ∧
  _brightness_scale (_init_platform_specific self) = _brightness_scale self.
Proof.
  unfold _init_platform_specific, supported_features.
  destruct (fold_init_capability_frame (capabilities self) (set_scenes [] [] 0 self))
    as (-> & -> & -> & -> & -> & ->).
  simpl. repeat split; try done.
Qed.

Lemma light_ext (a b : GoveeLifeLight) :
  capabilities a = capabilities b →
  _state_mapping a = _state_mapping b →
  _state_mapping_set a = _state_mapping_set b →
  _attr_supported_color_modes a = _attr_supported_color_modes b →
  _attr_effect_list a = _attr_effect_list b →
  _scene_mapping a = _scene_mapping b →
  _attr_supported_features a = _attr_supported_features b →
  _brightness_scale a = _brightness_scale b →
  a = b.
Proof. destruct a, b; simpl; by intros -> -> -> -> -> -> -> ->. Qed.

(** X4: initializing a light again changes nothing: the effect list and the
    scene mapping are rebuilt from scratch, not appended to. *)
Theorem init_idempotent (self : GoveeLifeLight) :
  _init_platform_specific (_init_platform_specific self) = _init_platform_specific self.
Proof.
  destruct (fold_init_capability_frame (capabilities self) (set_scenes [] [] 0 self))
    as (Hc & Hsm & Hss & Hb & Hm & Hf).
  destruct (fold_init_capability_frame
              (capabilities (_init_platform_specific self))
              (set_scenes [] [] 0 (_init_platform_specific self)))
    as (Hc' & Hsm' & Hss' & Hb' & Hm' & Hf').
  destruct (init_scenes self) as [Hl Hd].
  destruct (init_scenes (_init_platform_specific self)) as [Hl' Hd'].
  assert (Hcaps : capabilities (_init_platform_specific self) = capabilities self)
    by exact Hc.
  apply light_ext.
  - exact Hc'.
  - exact Hsm'.
  - exact Hss'.
  - unfold _init_platform_specific at 1. rewrite Hm'. simpl. rewrite Hcaps.
    unfold _init_platform_specific. rewrite Hm. simpl.
    apply set_eq. intros x. rewrite !elem_of_union. tauto.
  - by rewrite Hl', Hl, Hcaps.
  - by rewrite Hd', Hd, Hcaps.
  - unfold _init_platform_specific at 1. rewrite Hf'. simpl. rewrite Hcaps.
    unfold _init_platform_specific. rewrite Hf. done.
  - exact Hb'.
Qed.

End InitMore.

(* ------------------------------------------------------------------ *)

Module SceneMappingMore.
Import Py PyFacts Light LightSpec ExtraSpec InitFacts.

Section DictKeys.
Context {V : Type}.
Implicit Types (k : string) (v : V) (d : list (string * V)).

Lemma dict_set_keys k v d :
  (dict_set k v d).*1 = if bool_decide (k ∈ d.*1) then d.*1 else d.*1 ++ [k].
Proof.
  induction d as [|[k' v'] d IH]; [done|].
  cbn [dict_set]. destruct (decide (k = k')) as [->|Hne];
    rewrite !fmap_cons; cbn [fst].
  - rewrite bool_decide_eq_true_2; [done | by left].
  - rewrite IH. destruct (bool_decide (k ∈ d.*1)) eqn:Hin.
    + apply bool_decide_eq_true in Hin.
      rewrite bool_decide_eq_true_2; [done | by right].
    + apply bool_decide_eq_false in Hin.
      rewrite bool_decide_eq_false_2; [done|]. by intros [?|?]%elem_of_cons.
Qed.

Lemma dict_set_keys_NoDup k v d : NoDup d.*1 → NoDup (dict_set k v d).*1.
Proof.
  intros Hnd. rewrite dict_set_keys. case_bool_decide as Hin; [done|].
  apply NoDup_app. split; [done|]. split; [|apply NoDup_singleton].
  intros x Hx ->%list_elem_of_singleton. done.
Qed.

Lemma elem_of_dict_set_keys k k' v d :
  k' ∈ (dict_set k v d).*1 ↔ k' = k ∨ k' ∈ d.*1.
Proof.
  rewrite dict_set_keys. case_bool_decide as Hin.
  - split; [by right | by intros [->|?]].
  - rewrite elem_of_app, list_elem_of_singleton. tauto.
Qed.

Lemma elem_of_dict_set k v k' v' d :
  (k', v') ∈ dict_set k v d → (k', v') = (k, v) ∨ (k', v') ∈ d.
Proof.
  induction d as [|[k0 v0] d IH]; simpl.
  - intros ->%list_elem_of_singleton. by left.
  - destruct (decide (k = k0)) as [->|Hne].
    + intros [->|Hin]%elem_of_cons; [by left | right; by right].
    + intros [->|Hin]%elem_of_cons; [right; by left |].
      destruct (IH Hin) as [?|?]; [by left | right; by right].
Qed.

Lemma dict_update_keys_NoDup entries d :
  NoDup d.*1 → NoDup (dict_update entries d).*1.
Proof.
  revert d. induction entries as [|[k v] entries IH]; intros d Hnd; [done|].
  apply (IH (dict_set k v d)). by apply dict_set_keys_NoDup.
Qed.

Lemma elem_of_dict_update_keys entries d k :
  k ∈ (dict_update entries d).*1 ↔ k ∈ entries.*1 ∨ k ∈ d.*1.
Proof.
  revert d. induction entries as [|[k0 v0] entries IH]; intros d.
  - simpl. split; [by right | by intros [?%elem_of_nil|?]].
  - change (dict_update ((k0, v0) :: entries) d)
      with (dict_update entries (dict_set k0 v0 d)).
    rewrite IH, elem_of_dict_set_keys, fmap_cons, elem_of_cons. simpl. tauto.
Qed.

Lemma elem_of_dict_update entries d k v :
  (k, v) ∈ dict_update entries d → (k, v) ∈ entries ∨ (k, v) ∈ d.
Proof.
  revert d. induction entries as [|[k0 v0] entries IH]; intros d; [by right|].
  change (dict_update ((k0, v0) :: entries) d)
    with (dict_update entries (dict_set k0 v0 d)).
  intros [Hin|Hin]%IH.
  - left. by right.
  - apply elem_of_dict_set in Hin as [->|Hin]; [left; by left | by right].
Qed.

End DictKeys.

(** X5: after initialization the scene mapping has one entry per effect name,
    duplicates of the effect list collapsed: its keys are pairwise distinct
    and are exactly the names of the effect list; every entry is a
    dynamic-scene command whose instance is that of a dynamic-scene
    capability of the device. *)
Theorem scene_mapping_keys (self : GoveeLifeLight) :
  NoDup (_scene_mapping (_init_platform_specific self)).*1 ∧
  (∀ n, n ∈ (_scene_mapping (_init_platform_specific self)).*1 ↔
        n ∈ _attr_effect_list (_init_platform_specific self)) ∧
  (∀ n d, (n, d) ∈ _scene_mapping (_init_platform_specific self) →
     sc_type d = "devices.capabilities.dynamic_scene" ∧
     ∃ cap, cap ∈ capabilities self ∧
            cap_type cap = "devices.capabilities.dynamic_scene" ∧
            cap_instance cap = sc_instance d).
Proof.
  destruct (init_scenes self) as [-> ->]. split; [|split].
  - apply dict_update_keys_NoDup. constructor.
  - intros n. rewrite elem_of_dict_update_keys. unfold scene_names. simpl.
    split; [by intros [?|?%elem_of_nil] | by left].
  - intros n d [Hin|Hin%elem_of_nil]%elem_of_dict_update; [|done].
    apply elem_of_scene_entries in Hin
      as (cap & option & name & value & Hcap & Hty & _ & _ & _ & _ & ->).
    split; [done|]. by exists cap.
Qed.

End SceneMappingMore.

(* ------------------------------------------------------------------ *)

Module EffectMore.
Import Py PyFacts MonadFacts Light LightSpec TraceFacts PropertyFacts.

Lemma dict_get_Some_elem {V} (k : string) (v : V) (d : list (string * V)) :
  dict_get k d = Some v → (k, v) ∈ d.
Proof.
  induction d as [|[k' v'] d IH]; simpl; [done|].
  destruct (decide (k = k')) as [->|Hne].
  - intros [= ->]. by left.
  - intros Hget. right. by apply IH.
Qed.

Lemma flat_map_nil {A B} (f : A → list B) (l : list A) :
  (∀ a, a ∈ l → f a = []) → flat_map f l = [].
Proof.
  induction l as [|a l IH]; intros Hall; [done|]. simpl.
  rewrite (Hall a) by (by left). apply IH. intros b Hb. apply Hall. by right.
Qed.

Lemma flat_map_single {A B} (f : A → list B) (t : A) (l : list A) :
  NoDup l → t ∈ l → (∀ t', t' ∈ l → t' ≠ t → f t' = []) → flat_map f l = f t.
Proof.
  induction l as [|a l IH]; intros Hnd Hin Hothers.
  - by apply elem_of_nil in Hin.
  - apply NoDup_cons in Hnd as [Hnotin Hnd]. simpl.
    apply elem_of_cons in Hin as [->|Hin].
    + rewrite flat_map_nil; [by rewrite app_nil_r|].
      intros b Hb. apply Hothers; [by right | by intros ->].
    + rewrite (Hothers a); [|by left | by intros ->]. simpl.
      apply IH; [done..|]. intros t' Ht'. apply Hothers. by right.
Qed.

Lemma scene_types_NoDup : NoDup scene_types.
Proof.
  unfold scene_types. repeat constructor;
    rewrite ?elem_of_cons, ?elem_of_nil; intros H;
    repeat (destruct H as [H|H]; try discriminate H); done.
Qed.

Section Entity.
Context {World : Type}.
Variable cached : World → string → string → Value.
Implicit Types (self : GoveeLifeLight) (w : World).

(** X6: the effect property reads a selected scene back.  Let the scene named
    [n] stand for the command [d] in the scene mapping, of one of the three
    scene types and with a value other than None.  When the cache holds that
    value for that scene type and None for the other two, [effect] returns
    the name of a mapping entry with the same instance and value; it is [n]
    itself when no other entry has that instance and value. *)
Theorem effect_reads_back_selected self w n d :
  _attr_effect_list self ≠ [] →
  dict_get n (_scene_mapping self) = Some d →
  sc_instance d ∈ scene_types →
  sc_value d ≠ VNone →
  cached w "devices.capabilities.dynamic_scene" (sc_instance d) = sc_value d →
  (∀ t, t ∈ scene_types → t ≠ sc_instance d →
        cached w "devices.capabilities.dynamic_scene" t = VNone) →
  (∃ n' d', outcome (effect cached self w) = Ok (Some n') ∧
            (n', d') ∈ _scene_mapping self ∧
            sc_instance d' = sc_instance d ∧ sc_value d' = sc_value d) ∧
  ((∀ n' d', (n', d') ∈ _scene_mapping self →
             sc_instance d' = sc_instance d → sc_value d' = sc_value d → n' = n) →
   outcome (effect cached self w) = Ok (Some n)).
Proof.
  intros Hne Hget Hty Hv Hc Hothers.
  apply dict_get_Some_elem in Hget.
  assert (Ho : outcome (effect cached self w) =
               Ok (head (matching_names (_scene_mapping self)
                           (sc_instance d) (sc_value d)))).
  { unfold effect. rewrite bool_decide_eq_false_2 by done.
    destruct (effect_scan_spec cached self scene_types w) as [-> _].
    rewrite (flat_map_single _ (sc_instance d)); [by rewrite Hc | | done |].
    - apply scene_types_NoDup.
    - intros t Ht Hdiff. rewrite (Hothers t Ht Hdiff). unfold matching_names.
      by rewrite bool_decide_eq_true_2. }
  assert (Hn : n ∈ matching_names (_scene_mapping self)
                     (sc_instance d) (sc_value d)).
  { apply elem_of_matching_names. split; [done|]. by exists d. }
  destruct (head (matching_names (_scene_mapping self)
                    (sc_instance d) (sc_value d))) as [n'|] eqn:Hhead.
  - apply head_Some_elem_of in Hhead.
    apply elem_of_matching_names in Hhead as (_ & d' & Hin' & Hi' & Hv').
    split; [by exists n', d'|].
    intros Huniq. by rewrite Ho, (Huniq n' d' Hin' Hi' Hv').
  - apply head_None in Hhead. rewrite Hhead in Hn. by apply elem_of_nil in Hn.
Qed.

End Entity.

End EffectMore.

(* ------------------------------------------------------------------ *)

Module PayloadMore.
Import Py PyFacts MonadFacts Light LightSpec ExtraSpec TraceFacts PropertyFacts
  CommandFacts TurnOnOffFacts InitFacts SceneMappingMore EffectMore.
Local Open Scope Z_scope.

Lemma dict_get_is_Some {V} (k : string) (d : list (string * V)) :
  k ∈ d.*1 → is_Some (dict_get k d).
Proof.
  induction d as [|[k' v'] d IH]; simpl; [by intros ?%elem_of_nil|].
  destruct (decide (k = k')) as [->|Hne]; [by eauto|].
  intros [?|?]%elem_of_cons; [done | by apply IH].
Qed.

(** A request that names an effect and nothing else. *)
Lemma effect_command_calls {World} (control : World → StateCapability → World * Reply)
    self effect_name w :
  calls (trace (effect_command control self
                  {| ATTR_EFFECT := Some effect_name;
                     ATTR_BRIGHTNESS := None;
                     ATTR_COLOR_TEMP_KELVIN := None;
                     ATTR_RGB_COLOR := None |} w)) =
  match dict_get effect_name (_scene_mapping self) with
  | Some scene_data => [effect_capability scene_data]
  | None => []
  end.
Proof.
  unfold effect_command. cbn [ATTR_EFFECT].
  destruct (dict_get effect_name (_scene_mapping self)) as [scene_data|]; [|done].
  rewrite trace_bind. unfold log, emit. cbn [trace outcome world_after].
  rewrite control_and_notify_run. cbn [trace]. unfold effect_capability.
  by match goal with
     | |- context [match ?r with Returned _ => _ | Raised _ => _ end] =>
         destruct r as [[]|]
     end.
Qed.

Section Entity.
Context {World : Type}.
Variable cached : World → string → string → Value.
Variable control : World → StateCapability → World * Reply.
Implicit Types (self : GoveeLifeLight) (w : World) (kwargs : TurnOnArgs).







(** X9: the brightness sent to the device stays on the device's scale: for a
    host brightness between 1 and 255 and a scale with low ≤ high, the
    brightness block sends one command, whose value lies between low and
    high. *)
Theorem brightness_sent_within_scale self kwargs brightness w :
  ATTR_BRIGHTNESS kwargs = Some brightness →
  1 ≤ brightness ≤ 255 →
  fst (_brightness_scale self) ≤ snd (_brightness_scale self) →
  ∃ value,
    calls (trace (brightness_command control self kwargs w)) =
      [{| sc_type := "devices.capabilities.range";
          sc_instance := "brightness";
          sc_value := VInt value |}] ∧
    fst (_brightness_scale self) ≤ value ≤ snd (_brightness_scale self).
Proof.
  intros Hb Hrange Hscale. unfold brightness_command. rewrite Hb.
  eexists. split.
  - rewrite control_and_notify_run. simpl.
    by destruct (control w _).2 as [[]|e].
  - destruct (_brightness_scale self) as [lo hi]. cbn [fst snd] in *.
    rewrite BrightnessFacts.device_brightness_ceil.
    assert (H1 : 1 ≤ - (- (brightness * (hi - lo + 1)) / 255)).
    { assert (- (brightness * (hi - lo + 1)) / 255 < 0); [|lia].
      apply Z.div_lt_upper_bound; nia. }
    assert (H2 : - (- (brightness * (hi - lo + 1)) / 255) ≤ hi - lo + 1).
    { assert (- (hi - lo + 1) ≤ - (brightness * (hi - lo + 1)) / 255); [|lia].
      apply Z.div_le_lower_bound; nia. }
    lia.
Qed.

(** X7: every effect the entity lists can be selected, and no other.  After
    initialization, a request for an effect of the effect list sends exactly
    one command, the entry of the scene mapping under that name, which is a
    dynamic-scene command; a request for any other name sends nothing. *)
Theorem listed_effects_are_selectable self effect_name w :
  let light := _init_platform_specific self in
  let request :=
    {| ATTR_EFFECT := Some effect_name;
       ATTR_BRIGHTNESS := None;
       ATTR_COLOR_TEMP_KELVIN := None;
       ATTR_RGB_COLOR := None |} in
  (effect_name ∈ _attr_effect_list light →
   ∃ scene_data,
     dict_get effect_name (_scene_mapping light) = Some scene_data ∧
     sc_type scene_data = "devices.capabilities.dynamic_scene" ∧
     calls (trace (effect_command control light request w)) = [scene_data]) ∧
  (effect_name ∉ _attr_effect_list light →
   calls (trace (effect_command control light request w)) = []).
Proof.
  intros light request. subst light request.
  rewrite effect_command_calls.
  destruct (init_scenes self) as [-> ->]. split.
  - intros Hin.
    assert (Hkey : effect_name ∈ (dict_update (scene_entries (capabilities self)) []).*1).
    { apply elem_of_dict_update_keys. by left. }
    destruct (dict_get_is_Some _ _ Hkey) as [scene_data Hget].
    exists scene_data. rewrite Hget. split; [done|].
    apply dict_get_Some_elem, elem_of_dict_update in Hget as [Hentry|Hnil];
      [|by apply elem_of_nil in Hnil].
    apply elem_of_scene_entries in Hentry
      as (cap & option & name & value & _ & _ & _ & _ & _ & _ & ->).
    done.
  - intros Hnotin. rewrite dict_get_None; [done|].
    intros Hkey. apply Hnotin. apply elem_of_dict_update_keys in Hkey as [?|Hnil]; [done|].
    by apply elem_of_nil in Hnil.
Qed.

End Entity.

End PayloadMore.

(* ------------------------------------------------------------------ *)

Module TurnMore.
Import Py PyFacts MonadFacts Light LightSpec ExtraSpec TraceFacts PropertyFacts
  CommandFacts TurnOnOffFacts.

Lemma clean_app t1 t2 : clean (t1 ++ t2) ↔ clean t1 ∧ clean t2.
Proof. apply Forall_app. Qed.

Lemma errors_app t1 t2 : errors (t1 ++ t2) = errors t1 ++ errors t2.
Proof. apply omap_app. Qed.

Section Entity.
Context {World : Type}.
Variable cached : World → string → string → Value.
Variable control : World → StateCapability → World * Reply.
Implicit Types (self : GoveeLifeLight) (w : World) (kwargs : TurnOnArgs).

(** ** Stopping at a raising remote call *)

Lemma stops_bind {A B} (m : M World Event A) (k : A → M World Event B) :
  stops_at_raise m → (∀ a, stops_at_raise (k a)) → stops_at_raise (m ≫= k).
Proof.
  intros Hm Hk w. specialize (Hm w). rewrite trace_bind, outcome_bind.
  destruct (outcome (m w)) as [a|e].
  - specialize (Hk a (world_after (m w))).
    destruct (outcome (k a (world_after (m w)))) as [b|e].
    + by apply clean_app.
    + destruct Hk as [Hclean|(t0 & c & Hclean & ->)].
      * left. by apply clean_app.
      * right. exists (trace (m w) ++ t0), c.
        split; [by apply clean_app | by rewrite app_assoc].
  - by rewrite app_nil_r.
Qed.

Lemma stops_clean {A} (m : M World Event A) :
  (∀ w, clean (trace (m w))) → stops_at_raise m.
Proof. intros Hclean w. destruct (outcome (m w)); [done | by left]. Qed.

Lemma stops_seq {A} (m1 : M World Event unit) (m2 : M World Event A) :
  stops_at_raise m1 → stops_at_raise m2 → stops_at_raise (m1 ;; m2).
Proof. intros H1 H2. by apply stops_bind. Qed.

Lemma stops_ret {A} (a : A) : stops_at_raise (mret a : M World Event A).
Proof. apply stops_clean. intros w. constructor. Qed.

Lemma stops_log lvl msg : stops_at_raise (log lvl msg : M World Event unit).
Proof. apply stops_clean. intros w. by repeat constructor. Qed.

Lemma stops_subscript {A} (o : option A) :
  stops_at_raise (subscript o : M World Event A).
Proof. apply stops_clean. intros w. destruct o; constructor. Qed.

Lemma stops_control_and_notify c : stops_at_raise (control_and_notify control c).
Proof.
  intros w. rewrite control_and_notify_run. simpl.
  destruct (control w c).2 as [[]|e]; [by repeat constructor..|].
  right. exists [], c. split; [constructor | done].
Qed.

Lemma stops_is_on self : stops_at_raise (is_on cached self).
Proof.
  apply stops_clean. intros w. unfold is_on, state, get_cached, hash_key, log.
  unfold mbind, mret, M_bind, M_ret, bind, ret, raise, emit. simpl.
  case_hashable; simpl; [|constructor].
  case_bool_decide; simpl; by repeat constructor.
Qed.

Lemma stops_attribute_commands self kwargs :
  stops_at_raise (attribute_commands control self kwargs).
Proof.
  unfold attribute_commands, effect_command, brightness_command,
    color_temp_command, rgb_command.
  apply stops_seq; [|apply stops_seq; [|apply stops_seq]]; repeat case_match;
    first [ apply stops_ret
          | apply stops_control_and_notify
          | apply stops_seq; [apply stops_log | apply stops_control_and_notify] ].
Qed.

Lemma stops_power_on_command self : stops_at_raise (power_on_command cached control self).
Proof.
  unfold power_on_command. apply stops_bind; [apply stops_is_on|].
  intros []; simpl; [apply stops_log|].
  apply stops_bind; [apply stops_subscript|]. intros v. apply stops_control_and_notify.
Qed.

Lemma stops_power_off_command self : stops_at_raise (power_off_command cached control self).
Proof.
  unfold power_off_command. apply stops_bind; [apply stops_is_on|].
  intros []; simpl; [|apply stops_log].
  apply stops_bind; [apply stops_subscript|]. intros v. apply stops_control_and_notify.
Qed.

Lemma logged_ends_at_raise (body : M World Event unit) msg w :
  stops_at_raise body →
  ends_at_raise msg (trace (try_except body (λ e, emit (LogException msg e)) w)).
Proof.
  intros Hbody. specialize (Hbody w). rewrite trace_try_except.
  destruct (outcome (body w)) as [u|e].
  - left. by rewrite app_nil_r.
  - simpl. destruct Hbody as [Hclean|(t0 & c & Hclean & ->)].
    + left. apply clean_app. split; [done | by repeat constructor].
    + right. exists t0, c, e. split; [done|]. by rewrite <- app_assoc.
Qed.

(** X10: a remote call that raises ends the call of [async_turn_on] and of
    [async_turn_off]: in the trace of either, no remote call raised, or the
    trace ends with the remote call that raised followed by the error record
    of that same exception, and no remote call before it raised.  So no
    command and no notification follows a raising call, and the exception
    logged is the one the remote function raised. *)
Theorem raising_call_ends_the_run self kwargs w :
  ends_at_raise "async_turn_on failed"
    (trace (async_turn_on cached control self kwargs w)) ∧
  ends_at_raise "async_turn_off failed"
    (trace (async_turn_off cached control self w)).
Proof.
  split; apply logged_ends_at_raise.
  - unfold async_turn_on_body.
    apply stops_seq; [apply stops_log|].
    apply stops_seq; [apply stops_log|].
    apply stops_seq; [apply stops_attribute_commands | apply stops_power_on_command].
  - unfold async_turn_off_body.
    apply stops_seq; [apply stops_log|].
    apply stops_seq; [apply stops_log | apply stops_power_off_command].
Qed.

(** ** Error records *)

Lemma quiet_bind {A B} (m : M World Event A) (k : A → M World Event B) :
  (∀ w, errors (trace (m w)) = []) → (∀ a w, errors (trace (k a w)) = []) →
  ∀ w, errors (trace ((m ≫= k) w)) = [].
Proof.
  intros Hm Hk w. rewrite trace_bind, errors_app, Hm.
  destruct (outcome (m w)); [apply Hk | done].
Qed.

Lemma quiet_control_and_notify c w :
  errors (trace (control_and_notify control c w)) = [].
Proof. rewrite control_and_notify_run. simpl. by destruct (control w c).2 as [[]|e]. Qed.

Lemma quiet_is_on self w : errors (trace (is_on cached self w)) = [].
Proof.
  unfold is_on, state, get_cached, hash_key, log.
  unfold mbind, mret, M_bind, M_ret, bind, ret, raise, emit. simpl.
  case_hashable; simpl; [|done]. by case_bool_decide.
Qed.

Lemma quiet_attribute_commands self kwargs w :
  errors (trace (attribute_commands control self kwargs w)) = [].
Proof.
  revert w. unfold attribute_commands, effect_command, brightness_command,
    color_temp_command, rgb_command.
  apply quiet_bind; [|intros _; apply quiet_bind; [|intros _; apply quiet_bind; [|intros _]]];
    intros w; repeat case_match; try done; try apply quiet_control_and_notify.
Qed.

Lemma quiet_power_on_command self w :
  errors (trace (power_on_command cached control self w)) = [].
Proof.
  revert w. unfold power_on_command. apply quiet_bind; [apply quiet_is_on|].
  intros [] w; simpl; [done|]. revert w. apply quiet_bind.
  - intros w. by destruct (_state_mapping_set self !! STATE_ON).
  - intros v w. apply quiet_control_and_notify.
Qed.

(** A call of [async_turn_on] logs at most one error: the exception of its
    [try] block, if that raised. *)
Lemma async_turn_on_errors self kwargs w :
  errors (trace (async_turn_on cached control self kwargs w)) =
  match outcome (async_turn_on_body cached control self kwargs w) with
  | Ok _ => []
  | Raise e => [("async_turn_on failed", e)]
  end.
Proof.
  unfold async_turn_on. rewrite trace_try_except, errors_app.
  assert (Hbody : errors (trace (async_turn_on_body cached control self kwargs w)) = []).
  { revert w. unfold async_turn_on_body.
    apply quiet_bind; [done | intros _].
    apply quiet_bind; [done | intros _].
    apply quiet_bind; [apply quiet_attribute_commands | intros _].
    apply quiet_power_on_command. }
  rewrite Hbody. by destruct (outcome (async_turn_on_body cached control self kwargs w)).
Qed.

(** ** Outcomes *)

Lemma power_on_command_outcome self w :
  outcome (power_on_command cached control self w) =
  match outcome (is_on cached self w) with
  | Ok true => Ok tt
  | Ok false =>
      match _state_mapping_set self !! STATE_ON with
      | Some value => outcome (control_and_notify control (power_capability value) w)
      | None => Raise KeyError
      end
  | Raise e => Raise e
  end.
Proof.
  unfold power_on_command. rewrite outcome_bind, is_on_world.
  destruct (outcome (is_on cached self w)) as [[]|e]; simpl; [done| |done].
  by destruct (_state_mapping_set self !! STATE_ON).
Qed.

Lemma async_turn_on_body_world self kwargs w :
  world_after (async_turn_on_body cached control self kwargs w) =
  match outcome (attribute_commands control self kwargs w) with
  | Ok _ =>
      world_after (power_on_command cached control self
                     (world_after (attribute_commands control self kwargs w)))
  | Raise _ => world_after (attribute_commands control self kwargs w)
  end.
Proof.
  unfold async_turn_on_body.
  by repeat (rewrite ?outcome_bind, ?world_after_bind; simpl).
Qed.

Lemma control_and_notify_returns c w :
  (∀ w c, ∃ ok, (control w c).2 = Returned ok) →
  outcome (control_and_notify control c w) = Ok tt.
Proof.
  intros Hctl. rewrite control_and_notify_run. simpl.
  by destruct (Hctl w c) as [ok ->].
Qed.

Lemma returns_seq (m1 m2 : M World Event unit) :
  (∀ w, outcome (m1 w) = Ok tt) → (∀ w, outcome (m2 w) = Ok tt) →
  ∀ w, outcome ((m1 ;; m2) w) = Ok tt.
Proof. intros H1 H2 w. by rewrite outcome_bind, H1, H2. Qed.

Lemma attribute_commands_returns self kwargs w :
  (∀ w c, ∃ ok, (control w c).2 = Returned ok) →
  outcome (attribute_commands control self kwargs w) = Ok tt.
Proof.
  intros Hctl. revert w. unfold attribute_commands, effect_command,
    brightness_command, color_temp_command, rgb_command.
  apply returns_seq; [|apply returns_seq; [|apply returns_seq]];
    intros w; repeat case_match; try done; try by apply control_and_notify_returns.
Qed.

(** X11: a command that the remote function refuses does not stop the later
    ones.  When the remote function never raises (it reports a failure by
    returning false), the power value cached after the attribute commands
    can be looked up and an "on" value is configured, the [try] block of
    [async_turn_on] completes: every requested command is sent, then the
    power command unless the device is on by then, and no error is
    logged. *)
Theorem refused_commands_do_not_stop self kwargs w :
  (∀ w c, ∃ ok, (control w c).2 = Returned ok) →
  hashable (cached (world_after (attribute_commands control self kwargs w))
              "devices.capabilities.on_off" "powerSwitch") = true →
  is_Some (_state_mapping_set self !! STATE_ON) →
  outcome (async_turn_on_body cached control self kwargs w) = Ok tt ∧
  kinds (trace (async_turn_on cached control self kwargs w)) =
    requested_kinds self kwargs ++
    (if decide (cached_on cached self
                  (world_after (attribute_commands control self kwargs w)))
     then [] else [KPower]) ∧
  errors (trace (async_turn_on cached control self kwargs w)) = [].
Proof.
  intros Hctl Hh [value Hvalue].
  pose proof (attribute_commands_returns self kwargs w Hctl) as Hattr.
  set (w1 := world_after (attribute_commands control self kwargs w)) in *.
  assert (Hbody : outcome (async_turn_on_body cached control self kwargs w) = Ok tt).
  { rewrite async_turn_on_body_outcome, Hattr. fold w1.
    rewrite power_on_command_outcome, Hvalue.
    destruct (outcome (is_on cached self w1)) as [[]|e] eqn:Hison; [done| |].
    - by apply control_and_notify_returns.
    - unfold is_on in Hison. rewrite outcome_bind, state_outcome in Hison by done.
      done. }
  split; [done|]. split; [|by rewrite async_turn_on_errors, Hbody].
  unfold kinds. rewrite async_turn_on_calls, Hattr, fmap_app. fold w1.
  destruct (issues_attribute_commands control self kwargs w) as (_ & Hall & _).
  unfold kinds in Hall. rewrite (Hall tt Hattr). f_equal.
  destruct (power_on_command_run cached control self w1) as (-> & _ & _). rewrite Hvalue.
  destruct (decide (cached_on cached self w1)) as [Hon|Hoff].
  - assert (Hison : outcome (is_on cached self w1) = Ok true) by by apply is_on_true.
    by rewrite Hison.
  - assert (Hison : outcome (is_on cached self w1) = Ok false) by by apply is_on_false.
    by rewrite Hison.
Qed.

(** X12: without a configured "on" value the power command cannot be built.
    When the attribute commands went through and the device is not on
    afterwards, [async_turn_on] has sent exactly the requested commands and
    no power command, logs the one error KeyError, and leaves the world as
    the attribute commands left it. *)
Theorem turn_on_without_on_value self kwargs w :
  outcome (attribute_commands control self kwargs w) = Ok tt →
  hashable (cached (world_after (attribute_commands control self kwargs w))
              "devices.capabilities.on_off" "powerSwitch") = true →
  ¬ cached_on cached self (world_after (attribute_commands control self kwargs w)) →
  _state_mapping_set self !! STATE_ON = None →
  kinds (trace (async_turn_on cached control self kwargs w)) =
    requested_kinds self kwargs ∧
  errors (trace (async_turn_on cached control self kwargs w)) =
    [("async_turn_on failed", KeyError)] ∧
  world_after (async_turn_on cached control self kwargs w) =
    world_after (attribute_commands control self kwargs w).
Proof.
  intros Hattr Hh Hoff Hnone.
  set (w1 := world_after (attribute_commands control self kwargs w)) in *.
  assert (Hison : outcome (is_on cached self w1) = Ok false) by by apply is_on_false.
  assert (Hbody : outcome (async_turn_on_body cached control self kwargs w) =
                  Raise KeyError).
  { rewrite async_turn_on_body_outcome, Hattr. fold w1.
    by rewrite power_on_command_outcome, Hison, Hnone. }
  split; [|split].
  - unfold kinds. rewrite async_turn_on_calls, Hattr. fold w1.
    destruct (issues_attribute_commands control self kwargs w) as (_ & Hall & _).
    destruct (power_on_command_run cached control self w1) as (-> & _ & _).
    rewrite Hison, Hnone, app_nil_r. apply (Hall tt Hattr).
  - by rewrite async_turn_on_errors, Hbody.
  - unfold async_turn_on. rewrite world_after_try_except, Hbody.
    unfold emit. cbn [world_after].
    rewrite async_turn_on_body_world, Hattr. fold w1. unfold power_on_command.
    rewrite world_after_bind, Hison, is_on_world. cbn [negb].
    by rewrite Hnone.
Qed.

(** X13: without a configured "off" value a device that is on cannot be turned
    off: [async_turn_off] makes no remote call, logs KeyError and leaves the
    world unchanged. *)
Theorem turn_off_without_off_value self w :
  hashable (cached w "devices.capabilities.on_off" "powerSwitch") = true →
  cached_on cached self w →
  _state_mapping_set self !! STATE_OFF = None →
  trace (async_turn_off cached control self w) =
    [Log DEBUG "async_turn_off"; Log DEBUG "async_turn_off: kwargs";
     LogException "async_turn_off failed" KeyError] ∧
  world_after (async_turn_off cached control self w) = w.
Proof.
  intros Hh Hon Hnone.
  assert (Hison : is_on cached self w = mkRun w [] (Ok true)).
  { unfold is_on, state, get_cached, hash_key, log.
    unfold mbind, mret, M_bind, M_ret, bind, ret, raise, emit. simpl.
    rewrite Hh. simpl. unfold cached_on in Hon. by rewrite Hon. }
  assert (Hpower : power_off_command cached control self w = mkRun w [] (Raise KeyError)).
  { unfold power_off_command. unfold mbind at 1. unfold M_bind, bind.
    rewrite Hison. cbn [outcome world_after trace]. by rewrite Hnone. }
  unfold async_turn_off, async_turn_off_body.
  rewrite trace_try_except, world_after_try_except.
  repeat (rewrite ?outcome_bind, ?trace_bind, ?world_after_bind; simpl).
  by rewrite Hpower.
Qed.

End Entity.

End TurnMore.

(* ------------------------------------------------------------------ *)

Module SetupMore.
Import Py MonadFacts Light Setup SetupSpec.

Lemma added_app t1 t2 : added (t1 ++ t2) = added t1 ++ added t2.
Proof. apply omap_app. Qed.

Lemma setup_errors_app t1 t2 : setup_errors (t1 ++ t2) = setup_errors t1 ++ setup_errors t2.
Proof. apply omap_app. Qed.

Section Platform.
Context {Coordinator : Type}.
Variable GoveeLifeLight_new : Coordinator → DeviceCfg → Result GoveeLifeLight.
Implicit Types (entry_data : EntryData Coordinator) (w : unit).

(** One pass of the loop body: a device of another type leaves the entity
    list alone, a light device appends its entity or raises. *)
Lemma setup_device_run entry_data device_cfg entities w :
  added (trace (setup_device GoveeLifeLight_new entry_data device_cfg entities w)) = [] ∧
  setup_errors (trace (setup_device GoveeLifeLight_new entry_data device_cfg entities w)) = [] ∧
  outcome (setup_device GoveeLifeLight_new entry_data device_cfg entities w) =
    if is_light device_cfg then
      match build GoveeLifeLight_new entry_data device_cfg with
      | Ok entity => Ok (entities ++ [entity])
      | Raise e => Raise e
      end
    else Ok entities.
Proof.
  unfold setup_device, is_light, build, construct. cbv beta zeta.
  destruct (bool_decide (default STATE_UNKNOWN (cfg_type device_cfg)
                           ∈ platform_device_types)); cbn [negb]; [|done].
  destruct (CONF_COORDINATORS entry_data) as [coordinators|];
    [destruct (hashable (cfg_device device_cfg)) eqn:Hhashable;
       [destruct (coordinators !! cfg_device device_cfg) as [coordinator|] eqn:Hlookup;
          [destruct (GoveeLifeLight_new coordinator device_cfg) eqn:Hnew|]|]|];
    repeat progress
      (cbv [mbind mret M_bind M_ret bind ret raise emit log subscript hash_key
            outcome trace world_after];
       rewrite ?Hhashable, ?Hlookup, ?Hnew);
    done.
Qed.

Lemma setup_devices_run entry_data api_devices entities w :
  added (trace (setup_devices GoveeLifeLight_new entry_data api_devices entities w)) = [] ∧
  match build_all GoveeLifeLight_new entry_data api_devices with
  | Ok built =>
      outcome (setup_devices GoveeLifeLight_new entry_data api_devices entities w) =
        Ok (Some (entities ++ built)) ∧
      setup_errors
        (trace (setup_devices GoveeLifeLight_new entry_data api_devices entities w)) = []
  | Raise e =>
      outcome (setup_devices GoveeLifeLight_new entry_data api_devices entities w) =
        Ok None ∧
      setup_errors
        (trace (setup_devices GoveeLifeLight_new entry_data api_devices entities w)) =
        [("async_setup_entry: Setup device failed", e)]
  end.
Proof.
  revert entities w.
  induction api_devices as [|device_cfg rest IH]; intros entities w.
  - simpl. by rewrite app_nil_r.
  - cbn [setup_devices build_all].
    rewrite trace_bind, outcome_bind, trace_try_except, outcome_try_except.
    rewrite trace_bind, outcome_bind, !added_app, !setup_errors_app.
    destruct (setup_device_run entry_data device_cfg entities w) as (-> & -> & ->).
    destruct (is_light device_cfg).
    + destruct (build GoveeLifeLight_new entry_data device_cfg) as [entity|e]; simpl.
      * match goal with
        | |- context [setup_devices _ _ _ _ ?w'] =>
            destruct (IH (entities ++ [entity]) w') as [-> IHo]
        end.
        split; [done|].
        destruct (build_all GoveeLifeLight_new entry_data rest) as [built|e].
        -- destruct IHo as [-> ->]. by rewrite <- app_assoc.
        -- by destruct IHo as [-> ->].
      * done.
    + simpl.
      match goal with
      | |- context [setup_devices _ _ _ _ ?w'] =>
          destruct (IH entities w') as [-> IHo]
      end.
      split; [done|].
      destruct (build_all GoveeLifeLight_new entry_data rest) as [built|e];
        by destruct IHo as [-> ->].
Qed.

(** The first [try] block: the entry's data and its device list. *)
Lemma data_store_run (entry_data : option (EntryData Coordinator))
    (handler : exn → M unit Event (option (EntryData Coordinator * list DeviceCfg))) w :
  (∀ e w, handler e w =
          mkRun w [LogException
                     "async_setup_entry: Getting cloud devices from data store failed" e]
            (Ok None)) →
  try_except
    (log DEBUG "async_setup_entry: Getting cloud devices from data store";;
     entry_data ← subscript entry_data;
     api_devices ← subscript (CONF_DEVICES entry_data);
     mret (Some (entry_data, api_devices)))
    handler w =
  match entry_data with
  | Some entry_data =>
      match CONF_DEVICES entry_data with
      | Some api_devices =>
          mkRun w [Log DEBUG "async_setup_entry: Getting cloud devices from data store"]
            (Ok (Some (entry_data, api_devices)))
      | None =>
          mkRun w
            [Log DEBUG "async_setup_entry: Getting cloud devices from data store";
             LogException
               "async_setup_entry: Getting cloud devices from data store failed" KeyError]
            (Ok None)
      end
  | None =>
      mkRun w
        [Log DEBUG "async_setup_entry: Getting cloud devices from data store";
         LogException "async_setup_entry: Getting cloud devices from data store failed"
           KeyError]
        (Ok None)
  end.
Proof.
  intros Hhandler.
  destruct entry_data as [entry_data|];
    [destruct (CONF_DEVICES entry_data) as [api_devices|] eqn:Hdevices|];
    cbv [try_except log subscript mbind mret M_bind M_ret bind ret raise emit
         outcome trace world_after];
    rewrite ?Hdevices, ?Hhandler; reflexivity.
Qed.

(** X14: the platform set-up is all or nothing and never raises.  It returns
    False, registers nothing and logs one error when the entry's data or its
    device list is missing (KeyError) or when a light device cannot be set
    up: no coordinator under its id, or a constructor that raises; the
    entities built before the failing device are dropped.  Otherwise it
    returns None; devices of other types are skipped, and the entities of
    the light devices are registered in one call, in the order of the device
    list, unless there is none, in which case nothing is registered. *)
Theorem setup_entry_all_or_nothing (entry_data : option (EntryData Coordinator)) :
  outcome (async_setup_entry GoveeLifeLight_new entry_data tt) =
    Ok (setup_spec GoveeLifeLight_new entry_data).1.1 ∧
  added (trace (async_setup_entry GoveeLifeLight_new entry_data tt)) =
    (setup_spec GoveeLifeLight_new entry_data).1.2 ∧
  setup_errors (trace (async_setup_entry GoveeLifeLight_new entry_data tt)) =
    (setup_spec GoveeLifeLight_new entry_data).2.
Proof.
  unfold async_setup_entry, setup_spec.
  rewrite !trace_bind, !outcome_bind, !data_store_run by done.
  destruct entry_data as [entry_data|]; [|done].
  destruct (CONF_DEVICES entry_data) as [api_devices|]; [|done].
  unfold log, emit. cbn [outcome trace world_after].
  rewrite !trace_bind, !outcome_bind.
  destruct (setup_devices_run entry_data api_devices [] tt) as [Hadded Hrest].
  rewrite !added_app, !setup_errors_app, Hadded.
  destruct (build_all GoveeLifeLight_new entry_data api_devices) as [built|e].
  - destruct Hrest as [-> ->]. by destruct built.
  - by destruct Hrest as [-> ->].
Qed.

End Platform.

End SetupMore.

(* ------------------------------------------------------------------ *)

Module ServicesMore.
Import Py PyFacts MonadFacts Services ServicesSpec ServicesFacts.

Section Domain.
Variable DOMAIN : string.
Implicit Types (hass : Hass) (name : string) (service : ServiceFn) (call : ServiceCall).

Lemma is_entry_inv entry_id hass :
  is_entry DOMAIN entry_id hass = true →
  ∃ domain_data d,
    data hass !! DOMAIN = Some domain_data ∧ domain_data !! entry_id = Some (EntryData d).
Proof.
  unfold is_entry, item_of. intros Hentry.
  destruct (data hass !! DOMAIN) as [domain_data|]; [|done].
  destruct (domain_data !! entry_id) as [[d|light]|] eqn:Hitem; [|done..].
  by exists domain_data, d.
Qed.

(** A complete call on an existing entry: the one write and the one log
    record. *)
Lemma SetPollInterval_ok call hass entry_id scan_interval domain_data d :
  sets_interval call entry_id scan_interval →
  hashable entry_id = true →
  data hass !! DOMAIN = Some domain_data →
  domain_data !! entry_id = Some (EntryData d) →
  async_service_SetPollInterval DOMAIN call hass =
  mkRun
    {| data :=
         <[DOMAIN :=
             <[entry_id := EntryData (<[CONF_SCAN_INTERVAL := scan_interval]> d)]>
               domain_data]> (data hass);
       services := services hass |}
    [Log INFO "async_service_SetPollInterval: Poll interval updated"] (Ok tt).
Proof.
  intros (Hs & He & Hsn & Hen) Hh Hd Hi.
  unfold async_service_SetPollInterval, async_service_SetPollInterval_body.
  rewrite Hs, He. cbn [default from_option id].
  rewrite !bool_decide_eq_false_2 by done.
  unfold try_except, mbind, M_bind, bind.
  by rewrite (store_scan_interval_ok DOMAIN entry_id scan_interval hass domain_data d).
Qed.

(** X15: the poll-interval service stores what it is given and nothing else.
    For a call with both parameters, on a key that holds the data of a
    config entry, the interval read back from that entry is the one of the
    call; the other fields of the entry, the other keys of the domain, the
    other domains and the service registry are as before, and the only
    record logged is the confirmation. *)
Theorem poll_interval_stored call hass entry_id scan_interval :
  sets_interval call entry_id scan_interval →
  hashable entry_id = true →
  is_entry DOMAIN entry_id hass = true →
  field_of DOMAIN entry_id CONF_SCAN_INTERVAL
    (world_after (async_service_SetPollInterval DOMAIN call hass)) = Some scan_interval ∧
  (∀ field, field ≠ CONF_SCAN_INTERVAL →
     field_of DOMAIN entry_id field
       (world_after (async_service_SetPollInterval DOMAIN call hass)) =
     field_of DOMAIN entry_id field hass) ∧
  (∀ key, key ≠ entry_id →
     item_of DOMAIN key (world_after (async_service_SetPollInterval DOMAIN call hass)) =
     item_of DOMAIN key hass) ∧
  (∀ domain, domain ≠ DOMAIN →
     data (world_after (async_service_SetPollInterval DOMAIN call hass)) !! domain =
     data hass !! domain) ∧
  services (world_after (async_service_SetPollInterval DOMAIN call hass)) = services hass ∧
  trace (async_service_SetPollInterval DOMAIN call hass) =
    [Log INFO "async_service_SetPollInterval: Poll interval updated"].
Proof.
  intros Hcall Hh Hentry.
  destruct (is_entry_inv entry_id hass Hentry) as (domain_data & d & Hd & Hi).
  rewrite (SetPollInterval_ok call hass entry_id scan_interval domain_data d) by done.
  cbn [world_after trace]. unfold field_of, item_of. cbn [data services].
  rewrite lookup_insert_eq. split; [|split; [|split; [|split]]].
  - by rewrite !lookup_insert_eq.
  - intros field Hfield. rewrite lookup_insert_eq, Hd, Hi.
    by rewrite lookup_insert_ne.
  - intros key Hkey. by rewrite lookup_insert_ne, Hd.
  - intros domain Hdomain. by rewrite lookup_insert_ne.
  - done.
Qed.

(** X16: of two poll-interval calls for the same entry the later one wins: the
    two calls in a row leave [hass] exactly as the second call alone would
    have. *)
Theorem poll_interval_last_write_wins call1 call2 hass entry_id interval1 interval2 :
  sets_interval call1 entry_id interval1 →
  sets_interval call2 entry_id interval2 →
  hashable entry_id = true →
  is_entry DOMAIN entry_id hass = true →
  world_after
    (async_service_SetPollInterval DOMAIN call2
       (world_after (async_service_SetPollInterval DOMAIN call1 hass))) =
  world_after (async_service_SetPollInterval DOMAIN call2 hass).
Proof.
  intros Hcall1 Hcall2 Hh Hentry.
  destruct (is_entry_inv entry_id hass Hentry) as (domain_data & d & Hd & Hi).
  rewrite (SetPollInterval_ok call1 hass entry_id interval1 domain_data d) by done.
  rewrite (SetPollInterval_ok call2 hass entry_id interval2 domain_data d) by done.
  cbn [world_after].
  erewrite SetPollInterval_ok; [|done|done|..].
  2: { cbn [data]. apply lookup_insert_eq. }
  2: { apply lookup_insert_eq. }
  cbn [world_after data services]. by rewrite !insert_insert_eq.
Qed.

(** X17: [async_registerService] touches one registration at most and never
    replaces one: afterwards the name is registered, with the handler it
    had before if it had one and with the partial application of the given
    service otherwise; every other registration and [hass.data] are as
    before.  In particular [async_setup_services] leaves
    [set_segment_colors] registered. *)
Theorem register_service_keeps_existing name service hass :
  services (world_after (async_registerService DOMAIN name service hass))
    !! (DOMAIN, name) =
    Some (default (partial service) (services hass !! (DOMAIN, name))) ∧
  (∀ key, key ≠ (DOMAIN, name) →
     services (world_after (async_registerService DOMAIN name service hass)) !! key =
     services hass !! key) ∧
  data (world_after (async_registerService DOMAIN name service hass)) = data hass ∧
  is_Some (services (world_after (async_setup_services DOMAIN hass))
             !! (DOMAIN, "set_segment_colors")).
Proof.
  assert (Hone : ∀ name service,
    services (world_after (async_registerService DOMAIN name service hass))
      !! (DOMAIN, name) =
    Some (default (partial service) (services hass !! (DOMAIN, name)))).
  { intros name' service'.
    destruct (async_registerService_run DOMAIN name' service' hass) as [_ Hrun].
    destruct (services hass !! (DOMAIN, name')) as [handler|] eqn:Hs.
    - destruct Hrun as [-> _]. by rewrite Hs.
    - destruct Hrun as [-> _]. cbn [services default from_option].
      apply lookup_insert_eq. }
  split; [apply Hone|].
  destruct (async_registerService_run DOMAIN name service hass) as [_ Hrun].
  split; [|split].
  - intros key Hkey. destruct (services hass !! (DOMAIN, name)) as [handler|].
    + by destruct Hrun as [-> _].
    + destruct Hrun as [-> _]. cbn [services]. by rewrite lookup_insert_ne.
  - destruct (services hass !! (DOMAIN, name)) as [handler|];
      by destruct Hrun as [-> _].
  - unfold async_setup_services. rewrite Hone. eauto.
Qed.

End Domain.

End ServicesMore.

(* ------------------------------------------------------------------ *)

(** The statements of Part III on concrete devices. *)
Module MoreScenarios.
Import Py Light LightSpec ExtraSpec Fixtures MoreFixtures.
Local Open Scope Z_scope.

(** ** Effects *)

Lemma effect_reads_back_selected_witness :
  outcome (effect cache_read twin_light party_world) = Ok (Some "diyScene_Party").
Proof.
  apply (EffectMore.effect_reads_back_selected cache_read twin_light party_world
           "diyScene_Party"
           {| sc_type := "devices.capabilities.dynamic_scene";
              sc_instance := "diyScene";
              sc_value := VInt 2 |}).
  - by vm_compute.
  - by vm_compute.
  - cbn [sc_instance]. unfold scene_types. apply list_elem_of_further, list_elem_of_here.
  - done.
  - by vm_compute.
  - intros t Ht Hdiff. cbn [sc_instance] in Hdiff. unfold scene_types in Ht.
    apply elem_of_cons in Ht as [->|Ht]; [by vm_compute|].
    apply elem_of_cons in Ht as [->|Ht]; [done|].
    apply list_elem_of_singleton in Ht as ->. by vm_compute.
  - intros n' d' Hin _ _.
    assert (Hmapping : _scene_mapping twin_light =
                       [("diyScene_Party",
                         {| sc_type := "devices.capabilities.dynamic_scene";
                            sc_instance := "diyScene";
                            sc_value := VInt 2 |})]) by by vm_compute.
    rewrite Hmapping in Hin. apply list_elem_of_singleton in Hin. by inversion Hin.
Defined.

(** ** Turning on and off *)

(** The device refuses everything: the scene, the brightness and the power
    command are all sent, and nothing is logged as failed. *)
Lemma refused_commands_do_not_stop_witness :
  kinds (trace (async_turn_on cache_read deaf_device strip sunrise_at_half off_world)) =
    [KEffect; KBrightness; KPower] ∧
  errors (trace (async_turn_on cache_read deaf_device strip sunrise_at_half off_world)) = [].
Proof.
  destruct (TurnMore.refused_commands_do_not_stop cache_read deaf_device strip
              sunrise_at_half off_world) as (_ & Hkinds & Herrors).
  - intros w c. by exists false.
  - by vm_compute.
  - exists (VInt 1). by vm_compute.
  - rewrite Hkinds. split; [by vm_compute | exact Herrors].
Defined.

(** With the class defaults the strip takes the scene and the brightness
    and then fails on the power value. *)
Lemma turn_on_without_on_value_witness :
  kinds (trace (async_turn_on cache_read obedient_device unmapped_strip
                  sunrise_at_half off_world)) = [KEffect; KBrightness] ∧
  errors (trace (async_turn_on cache_read obedient_device unmapped_strip
                   sunrise_at_half off_world)) = [("async_turn_on failed", KeyError)].
Proof.
  destruct (TurnMore.turn_on_without_on_value cache_read obedient_device unmapped_strip
              sunrise_at_half off_world) as (Hkinds & Herrors & _).
  - by vm_compute.
  - by vm_compute.
  - unfold cached_on. by vm_compute.
  - by vm_compute.
  - rewrite Hkinds. split; [by vm_compute | exact Herrors].
Defined.

Lemma turn_off_without_off_value_witness :
  trace (async_turn_off cache_read obedient_device read_only_strip on_world) =
    [Log DEBUG "async_turn_off"; Log DEBUG "async_turn_off: kwargs";
     LogException "async_turn_off failed" KeyError].
Proof.
  apply (TurnMore.turn_off_without_off_value cache_read obedient_device
           read_only_strip on_world).
  - by vm_compute.
  - unfold cached_on. by vm_compute.
  - by vm_compute.
Defined.

(** A raising remote call: the brightness command is the last thing sent,
    and its exception is the one logged. *)
Example turn_on_ends_at_raising_call :
  trace (async_turn_on cache_read broken_device strip (brightness_only 128) off_world) =
    [Log DEBUG "async_turn_on"; Log DEBUG "async_turn_on: kwargs";
     ControlDevice (brightness_capability strip 128) (Raised (OtherError "ClientError"));
     LogException "async_turn_on failed" (OtherError "ClientError")].
Proof. by vm_compute. Qed.

(** An effect name the strip does not have is skipped; the colour goes out
    as one integer. *)
Example turn_on_unknown_effect_is_skipped :
  calls (trace (async_turn_on cache_read deaf_device strip
                  red_with_unknown_effect on_world)) =
    [{| sc_type := "devices.capabilities.color_setting";
        sc_instance := "colorRgb";
        sc_value := VInt 16711680 |}] ∧
  errors (trace (async_turn_on cache_read deaf_device strip
                   red_with_unknown_effect on_world)) = [].
Proof. by vm_compute. Qed.

Lemma brightness_sent_within_scale_witness :
  ∃ value,
    calls (trace (brightness_command deaf_device strip (brightness_only 128) off_world)) =
      [{| sc_type := "devices.capabilities.range";
          sc_instance := "brightness";
          sc_value := VInt value |}] ∧
    fst (_brightness_scale strip) ≤ value ≤ snd (_brightness_scale strip).
Proof.
  apply (PayloadMore.brightness_sent_within_scale deaf_device strip
           (brightness_only 128) 128 off_world).
  - reflexivity.
  - lia.
  - by vm_compute.
Defined.

(** ** Services *)

Lemma every_30_seconds_sets : ServicesSpec.sets_interval every_30_seconds (VStr "entry1") (VInt 30).
Proof. repeat split; by vm_compute. Qed.

Lemma every_5_minutes_sets : ServicesSpec.sets_interval every_5_minutes (VStr "entry1") (VInt 300).
Proof. repeat split; by vm_compute. Qed.

Lemma poll_interval_stored_witness :
  ServicesSpec.field_of GOVEE (VStr "entry1") Services.CONF_SCAN_INTERVAL
    (world_after (Services.async_service_SetPollInterval GOVEE every_30_seconds home)) =
  Some (VInt 30).
Proof.
  apply (ServicesMore.poll_interval_stored GOVEE every_30_seconds home
           (VStr "entry1") (VInt 30)).
  - apply every_30_seconds_sets.
  - reflexivity.
  - by vm_compute.
Defined.

Lemma poll_interval_last_write_wins_witness :
  world_after
    (Services.async_service_SetPollInterval GOVEE every_5_minutes
       (world_after (Services.async_service_SetPollInterval GOVEE every_30_seconds home))) =
  world_after (Services.async_service_SetPollInterval GOVEE every_5_minutes home).
Proof.
  apply (ServicesMore.poll_interval_last_write_wins GOVEE every_30_seconds
           every_5_minutes home (VStr "entry1") (VInt 30) (VInt 300)).
  - apply every_30_seconds_sets.
  - apply every_5_minutes_sets.
  - reflexivity.
  - by vm_compute.
Defined.

(** ** Platform set-up *)

(** Both lights have a coordinator: the heater is skipped and the two
    lights are registered together. *)
Example setup_registers_the_lights :
  let entry := entry_with ["AA:01"; "AA:02"; "AA:03"]
                 (device "devices.types.light" "AA:03" strip_caps) in
  outcome (Setup.async_setup_entry light_of_capabilities (Some entry) tt) =
    Ok Setup.ReturnNone ∧
  length <$> Setup.added
               (trace (Setup.async_setup_entry light_of_capabilities (Some entry) tt)) = [2%nat].
Proof. by vm_compute. Qed.

(** The second light has no coordinator: the first light, already built,
    is not registered either. *)
Example setup_drops_the_first_light :
  let entry := entry_with ["AA:01"; "AA:02"]
                 (device "devices.types.light" "AA:03" strip_caps) in
  outcome (Setup.async_setup_entry light_of_capabilities (Some entry) tt) =
    Ok Setup.ReturnFalse ∧
  Setup.added (trace (Setup.async_setup_entry light_of_capabilities (Some entry) tt)) = [] ∧
  SetupSpec.setup_errors
    (trace (Setup.async_setup_entry light_of_capabilities (Some entry) tt)) =
    [("async_setup_entry: Setup device failed", KeyError)].
Proof. by vm_compute. Qed.

(** An entry with no light at all registers nothing and returns None. *)
Example setup_without_lights :
  let entry := {| Setup.CONF_DEVICES := Some [device "devices.types.heater" "AA:02" []];
                  Setup.CONF_COORDINATORS := Some (∅ : gmap Value string) |} in
  trace (Setup.async_setup_entry light_of_capabilities (Some entry) tt) =
    [Setup.Log DEBUG "Setting up platform entry";
     Setup.Log DEBUG "async_setup_entry: Getting cloud devices from data store";
     Setup.Log INFO "async_setup_entry: setup entities"].
Proof. by vm_compute. Qed.

End MoreScenarios.
